(** * grpc-gateway [runtime/context.go]: request annotation, timeout codec,
      server metadata carrier

    A shallow embedding of
    [vendor/github.com/grpc-ecosystem/grpc-gateway/runtime/context.go]
    together with the properties its specification states about it.

    Conventions.
    - A Go [string] is a sequence of bytes: [string] of the Standard Library.
    - [int64], [uint64] and [time.Duration] are [Z] with the wrap-around of
      the machine operations written out ([wrapU64], [wrapI64]).
    - A Go function with results [(v, err)] returns a pair whose second
      component is [None] for a [nil] error.
    - [http.Header] is a [gmap string (list string)]; the order in which a
      [range] statement visits it is an explicit argument. *)

From Stdlib Require Import ZArith Ascii String List Lia Bool.
From stdpp Require Import base option list strings gmap fin_maps.

Local Open Scope Z_scope.

(** ** Machine integers *)

Module Int.

Definition maxUint64 : Z := 2 ^ 64 - 1.
Definition maxInt64 : Z := 2 ^ 63 - 1.
Definition minInt64 : Z := - 2 ^ 63.

(** A [uint64] result: the value modulo [2^64]. *)
Definition wrapU64 (x : Z) : Z := x mod 2 ^ 64.

(** An [int64] result: the two's complement value of the low 64 bits. *)
Definition wrapI64 (x : Z) : Z := (x + 2 ^ 63) mod 2 ^ 64 - 2 ^ 63.

Definition inInt64 (x : Z) : Prop := minInt64 <= x <= maxInt64.

End Int.

(** ** Byte strings *)

Module Str.

Definition byte (c : ascii) : Z := Z.of_N (N_of_ascii c).

(** [len(s)]. *)
Definition len (s : string) : nat := String.length s.

(** [s[i]] for [i < len(s)]; the source indexes only inside the bounds. *)
Definition at_ (s : string) (i : nat) : ascii :=
  match String.get i s with
  | Some c => c
  | None => Ascii.zero
  end.

(** [s[lo:hi]] for [lo <= hi <= len(s)]. *)
Definition slice (s : string) (lo hi : nat) : string :=
  String.substring lo (hi - lo) s.

(** The string [p] followed by the byte [u]. *)
Definition snoc (p : string) (u : ascii) : string :=
  p +:+ String u EmptyString.

(** [strings.HasPrefix(s, prefix)]:
    [len(s) >= len(prefix) && s[0:len(prefix)] == prefix]. *)
Definition HasPrefix (s prefix : string) : bool :=
  (len prefix <=? len s)%nat && String.eqb (slice s 0 (len prefix)) prefix.

(** [strings.ToLower] on the ASCII letters; other bytes are kept. *)
Definition lowerByte (c : ascii) : ascii :=
  if (65 <=? byte c) && (byte c <=? 90)
  then ascii_of_N (N_of_ascii c + 32)
  else c.

Fixpoint ToLower (s : string) : string :=
  match s with
  | EmptyString => EmptyString
  | String c r => String (lowerByte c) (ToLower r)
  end.

End Str.

(** ** [strconv.ParseInt(s, 10, 64)] of the Go library *)

Module Strconv.
Import Int Str.

Inductive Err := ErrSyntax | ErrRange.

(** [*strconv.NumError]. *)
Record NumError := mkNumError { Func : string; Num : string; Err_ : Err }.

Definition cutoff10 : Z := maxUint64 / 10 + 1.

(** The digit loop of [ParseUint] for base 10 and bit size 64, entered with
    the value [n] accumulated so far.  A byte that is no decimal digit is a
    syntax error with value 0; an overflow is a range error with value
    [maxUint64]. *)
Fixpoint parseUintLoop (s : string) (n : Z) : Z * option Err :=
  match s with
  | EmptyString => (n, None)
  | String d r =>
      let c := byte d in
      let v := if (48 <=? c) && (c <=? 57) then Some (c - 48)
               else if (97 <=? c) && (c <=? 122) then Some (c - 97 + 10)
               else if (65 <=? c) && (c <=? 90) then Some (c - 65 + 10)
               else None in
      match v with
      | None => (0, Some ErrSyntax)
      | Some v =>
          if 10 <=? v then (0, Some ErrSyntax)
          else if cutoff10 <=? n then (maxUint64, Some ErrRange)
          else
            let n := wrapU64 (n * 10) in
            let n1 := wrapU64 (n + v) in
            if (n1 <? n) || (maxUint64 <? n1) then (maxUint64, Some ErrRange)
            else parseUintLoop r n1
      end
  end.

Definition ParseUint (s : string) : Z * option NumError :=
  if (len s <? 1)%nat then (0, Some (mkNumError "ParseUint" s ErrSyntax))
  else
    match parseUintLoop s 0 with
    | (n, None) => (n, None)
    | (n, Some e) => (n, Some (mkNumError "ParseUint" s e))
    end.

Definition ParseInt (s0 : string) : Z * option NumError :=
  if (len s0 =? 0)%nat then (0, Some (mkNumError "ParseInt" s0 ErrSyntax))
  else
    let '(neg, s) :=
      if Ascii.eqb (at_ s0 0) "+" then (false, slice s0 1 (len s0))
      else if Ascii.eqb (at_ s0 0) "-" then (true, slice s0 1 (len s0))
      else (false, s0) in
    let '(un, err) := ParseUint s in
    match err with
    | Some (mkNumError _ _ ErrSyntax) =>
        (0, Some (mkNumError "ParseInt" s0 ErrSyntax))
    | _ =>
        let cutoff := 2 ^ 63 in
        if negb neg && (cutoff <=? un)
        then (cutoff - 1, Some (mkNumError "ParseInt" s0 ErrRange))
        else if neg && (cutoff <? un)
        then (- cutoff, Some (mkNumError "ParseInt" s0 ErrRange))
        else
          let n := wrapI64 un in
          (if neg then wrapI64 (- n) else n, None)
    end.

(** What [ParseInt] does once the sign is taken off: [r] is the rest, [neg]
    the sign, [s0] the whole numeral. *)
Definition afterSign (neg : bool) (r s0 : string) : Z * option NumError :=
  let '(un, err) := ParseUint r in
  match err with
  | Some (mkNumError _ _ ErrSyntax) =>
      (0, Some (mkNumError "ParseInt" s0 ErrSyntax))
  | _ =>
      let cutoff := 2 ^ 63 in
      if negb neg && (cutoff <=? un)
      then (cutoff - 1, Some (mkNumError "ParseInt" s0 ErrRange))
      else if neg && (cutoff <? un)
      then (- cutoff, Some (mkNumError "ParseInt" s0 ErrRange))
      else
        let n := wrapI64 un in
        (if neg then wrapI64 (- n) else n, None)
  end.

End Strconv.

(** ** The timeout codec (context.go, lines 110-143) *)

Module Time.
(** [time.Duration] counts nanoseconds in an [int64]. *)
Definition Nanosecond : Z := 1.
Definition Microsecond : Z := 1000 * Nanosecond.
Definition Millisecond : Z := 1000 * Microsecond.
Definition Second : Z := 1000 * Millisecond.
Definition Minute : Z := 60 * Second.
Definition Hour : Z := 60 * Minute.
End Time.

Inductive decodeError :=
  | TooShort (s : string)
  | UnitNotRecognized (s : string)
  | BadNumber (e : Strconv.NumError).

Definition timeoutUnitToDuration (u : ascii) : Z * bool :=
  if Ascii.eqb u "H" then (Time.Hour, true)
  else if Ascii.eqb u "M" then (Time.Minute, true)
  else if Ascii.eqb u "S" then (Time.Second, true)
  else if Ascii.eqb u "m" then (Time.Millisecond, true)
  else if Ascii.eqb u "u" then (Time.Microsecond, true)
  else if Ascii.eqb u "n" then (Time.Nanosecond, true)
  else (0, false).

Definition timeoutDecode (s : string) : Z * option decodeError :=
  let size := Str.len s in
  if (size <? 2)%nat then (0, Some (TooShort s))
  else
    let '(d, ok) := timeoutUnitToDuration (Str.at_ s (size - 1)) in
    if negb ok then (0, Some (UnitNotRecognized s))
    else
      match Strconv.ParseInt (Str.slice s 0 (size - 1)) with
      | (_, Some err) => (0, Some (BadNumber err))
      | (t, None) => (Int.wrapI64 (d * t), None)
      end.

(** ** [net.SplitHostPort] of the Go library *)

Module Net.
Import Str.

Record AddrError := mkAddrError { Err : string; Addr : string }.

(** [IndexByte(s, c)]: the index of the first [c] in [s]. *)
Fixpoint IndexByte (s : string) (c : ascii) : option nat :=
  match s with
  | EmptyString => None
  | String d r =>
      if Ascii.eqb d c then Some O
      else match IndexByte r c with
           | Some i => Some (S i)
           | None => None
           end
  end.

(** [last(s, c)]: the index of the last [c] in [s]. *)
Fixpoint last (s : string) (c : ascii) : option nat :=
  match s with
  | EmptyString => None
  | String d r =>
      match last r c with
      | Some i => Some (S i)
      | None => if Ascii.eqb d c then Some O else None
      end
  end.

Definition addrErr (addr why : string) : string * string * option AddrError :=
  (EmptyString, EmptyString, Some (mkAddrError why addr)).

Definition missingPort : string := "missing port in address".
Definition tooManyColons : string := "too many colons in address".

Definition SplitHostPort (hostport : string)
  : string * string * option AddrError :=
  match last hostport ":" with
  | None => addrErr hostport missingPort
  | Some i =>
      let bracketed :=
        if Ascii.eqb (at_ hostport 0) "["
        then
          match IndexByte hostport "]" with
          | None => inr "missing ']' in address"
          | Some end_ =>
              if (end_ + 1 =? len hostport)%nat then inr missingPort
              else if (end_ + 1 =? i)%nat
              then inl (slice hostport 1 end_, 1%nat, (end_ + 1)%nat)
              else if Ascii.eqb (at_ hostport (end_ + 1)) ":"
              then inr tooManyColons
              else inr missingPort
          end
        else
          let host := slice hostport 0 i in
          match IndexByte host ":" with
          | Some _ => inr tooManyColons
          | None => inl (host, O, O)
          end in
      match bracketed with
      | inr why => addrErr hostport why
      | inl (host, j, k) =>
          match IndexByte (slice hostport j (len hostport)) "[" with
          | Some _ => addrErr hostport "unexpected '[' in address"
          | None =>
              match IndexByte (slice hostport k (len hostport)) "]" with
              | Some _ => addrErr hostport "unexpected ']' in address"
              | None => (host, slice hostport (i + 1) (len hostport), None)
              end
          end
      end
  end.

End Net.

(** ** Metadata sets, contexts and gRPC errors *)

(** Modelled from the spec: the [metadata] package of grpc
    ([metadata.MD], [metadata.Pairs], [metadata.NewContext],
    [metadata.FromContext]) is not among the sources.  A metadata set is an
    ordered sequence of (key, value) string pairs in which duplicate keys are
    kept and keys are lower-cased when they are placed in the set. *)
Definition MD : Type := list (string * string).

(** Modelled from the spec: [metadata.Pairs(kv...)] builds the metadata set of
    the pairs [kv[0],kv[1]], [kv[2],kv[3]], ...  It is called only with a
    sequence of even length. *)
Fixpoint Pairs (kv : list string) : MD :=
  match kv with
  | k :: v :: r => (Str.ToLower k, v) :: Pairs r
  | _ => []
  end.

(** ServerMetadata consists of metadata sent from gRPC server. *)
Record ServerMetadata := mkServerMetadata { HeaderMD : MD; TrailerMD : MD }.

Module Context.

(** Modelled from the spec: the [context] package is not among the sources.
    A context is the chain of derivations that produced it; a value is looked
    up at the nearest binding of its key on the chain, and a context derived
    with a deadline carries that deadline. *)

(** Modelled from the spec: the keys under which values are bound are the
    private key types of the packages, [serverMetadataKey{}] of this file,
    [mdKey{}] of the [metadata] package, and the keys of other packages. *)
Inductive Key :=
  | serverMetadataKey
  | mdKey
  | otherKey (name : string).

(** Modelled from the spec: the dynamically typed values ([interface{}]) a
    context can hold. *)
Inductive Val :=
  | VServerMetadata (md : ServerMetadata)
  | VMD (md : MD)
  | VOther (v : string).

(** Modelled from the spec: [context.Context], the root context or a context
    derived from a parent with a deadline or with a value bound to a key. *)
Inductive Context :=
  | Background
  | WithDeadline (parent : Context) (d : Z)
  | WithValue (parent : Context) (key : Key) (val : Val).

Definition Key_eqb (a b : Key) : bool :=
  match a, b with
  | serverMetadataKey, serverMetadataKey => true
  | mdKey, mdKey => true
  | otherKey x, otherKey y => String.eqb x y
  | _, _ => false
  end.

(** Modelled from the spec: [ctx.Value(key)], the value bound to [key] on
    this context or, failing that, on an ancestor; [None] is the [nil]
    interface. *)
Fixpoint Value (ctx : Context) (key : Key) : option Val :=
  match ctx with
  | Background => None
  | WithDeadline parent _ => Value parent key
  | WithValue parent k v => if Key_eqb k key then Some v else Value parent key
  end.

(** Modelled from the spec: [ctx.Deadline()], the deadline the context was
    derived with, if any. *)
Fixpoint Deadline (ctx : Context) : option Z :=
  match ctx with
  | Background => None
  | WithDeadline _ d => Some d
  | WithValue parent _ _ => Deadline parent
  end.

(** Modelled from the spec: [context.WithTimeout(ctx, timeout)] at the clock
    reading [now], a child context with a deadline equal to [now + timeout]
    (the caller drops the cancel function). *)
Definition WithTimeout (now : Z) (ctx : Context) (timeout : Z) : Context :=
  WithDeadline ctx (now + timeout).

(** [c] is [ctx] or was derived from it. *)
Inductive descendant (ctx : Context) : Context -> Prop :=
  | desc_refl : descendant ctx ctx
  | desc_deadline c d : descendant ctx c -> descendant ctx (WithDeadline c d)
  | desc_value c k v : descendant ctx c -> descendant ctx (WithValue c k v).

(** [c] is [ctx] or was derived from it without binding [serverMetadataKey]
    again. *)
Inductive keeps (ctx : Context) : Context -> Prop :=
  | keep_refl : keeps ctx ctx
  | keep_deadline c d : keeps ctx c -> keeps ctx (WithDeadline c d)
  | keep_value c k v :
      k <> serverMetadataKey -> keeps ctx c -> keeps ctx (WithValue c k v).

(** A [ServerMetadata] is bound under [serverMetadataKey] somewhere on the
    chain of [ctx]. *)
Fixpoint attached (ctx : Context) : bool :=
  match ctx with
  | Background => false
  | WithDeadline parent _ => attached parent
  | WithValue parent serverMetadataKey (VServerMetadata _) => true
  | WithValue parent _ _ => attached parent
  end.

End Context.
Import Context.

(** Modelled from the spec: [metadata.NewContext(ctx, md)] attaches a
    metadata set to the context as the outbound call metadata. *)
Definition NewContext (ctx : Context) (md : MD) : Context :=
  WithValue ctx mdKey (VMD md).

(** Modelled from the spec: [metadata.FromContext(ctx)] reads the metadata
    set attached to the context; the second component says whether there is
    one. *)
Definition FromContext (ctx : Context) : MD * bool :=
  match Value ctx mdKey with
  | Some (VMD md) => (md, true)
  | _ => ([], false)
  end.

(** Modelled from the spec: the error classes of [grpc/codes]. *)
Module Codes.
Definition Code : Type := Z.
Definition OK : Code := 0.
Definition InvalidArgument : Code := 3.
End Codes.

(** Modelled from the spec: the errors of the grpc package, which is not
    among the sources, carry an error class and a description. *)
Record rpcError := mkRpcError { code : Codes.Code; desc : string }.

(** Modelled from the spec: [grpc.Errorf(c, format, a...)] gives the error of
    class [c] whose description is the formatted text [desc]. *)
Definition Errorf (c : Codes.Code) (desc : string) : rpcError :=
  mkRpcError c desc.

(** ** The inbound request *)

Module Http.

(** [http.Header] is [map[string][]string]. *)
Abbreviation Header := (gmap string (list string)).

(** [h.Get(key)] for a [key] already in canonical form, as the three names
    this file asks for are: the first value stored under [key], or the empty
    string. *)
Definition Get (h : Header) (key : string) : string :=
  match h !! key with
  | Some (v :: _) => v
  | _ => EmptyString
  end.

(** Go leaves the order in which [range] visits a map unspecified: a loop
    over [h] visits each entry once, in some order [kvs]. *)
Definition rangeOf (h : Header) (kvs : list (string * list string)) : Prop :=
  kvs ≡ₚ map_to_list h.

End Http.

(** The fields of [*http.Request] the annotation reads. *)
Record Request := mkRequest {
  Header : Http.Header;
  Host : string;
  RemoteAddr : string
}.

(** ** [AnnotateContext] (context.go, lines 18-89) *)

Definition MetadataHeaderPrefix : string := "Grpc-Metadata-".
Definition MetadataTrailerPrefix : string := "Grpc-Trailer-".
Definition metadataGrpcTimeout : string := "Grpc-Timeout".
Definition xForwardedFor : string := "X-Forwarded-For".
Definition xForwardedHost : string := "X-Forwarded-Host".

(** [append(pairs, k, v)]. *)
Definition append2 (pairs : list string) (k v : string) : list string :=
  pairs ++ [k; v].

(** Body of the inner loop (lines 55-61) for one value of the header [key]. *)
Definition projectValue (key : string) (pairs : list string) (val : string)
  : list string :=
  if String.eqb key "Authorization" then append2 pairs "authorization" val
  else if Str.HasPrefix key MetadataHeaderPrefix
  then append2 pairs
         (Str.slice key (Str.len MetadataHeaderPrefix) (Str.len key)) val
  else pairs.

(** The loops of lines 53-63, visiting the header entries in the order
    [kvs]. *)
Definition projectHeader (kvs : list (string * list string))
  (pairs : list string) : list string :=
  fold_left (fun pairs '(key, vals) => fold_left (projectValue key) vals pairs)
    kvs pairs.

(** Lines 64-68. *)
Definition forwardedHost (req : Request) (pairs : list string) : list string :=
  let host := Http.Get (Header req) xForwardedHost in
  if negb (String.eqb host EmptyString)
  then append2 pairs (Str.ToLower xForwardedHost) host
  else if negb (String.eqb (Host req) EmptyString)
  then append2 pairs (Str.ToLower xForwardedHost) (Host req)
  else pairs.

(** Lines 70-80; the second component is what [grpclog.Printf] is given. *)
Definition forwardedFor (req : Request) (pairs : list string)
  : list string * list string :=
  let addr := RemoteAddr req in
  if negb (String.eqb addr EmptyString)
  then
    match Net.SplitHostPort addr with
    | (remoteIP, _, None) =>
        let fwd := Http.Get (Header req) xForwardedFor in
        if String.eqb fwd EmptyString
        then (append2 pairs (Str.ToLower xForwardedFor) remoteIP, [])
        else (append2 pairs (Str.ToLower xForwardedFor)
                (fwd +:+ ", " +:+ remoteIP), [])
    | (_, _, Some _) => (pairs, ["invalid remote addr: " +:+ addr])
    end
  else (pairs, []).

(** Lines 44-51: the timeout in force, or the error that ends the call. *)
Definition effectiveTimeout (DefaultContextTimeout : Z) (req : Request)
  : Z * option rpcError :=
  let timeout := DefaultContextTimeout in
  let tm := Http.Get (Header req) metadataGrpcTimeout in
  if negb (String.eqb tm EmptyString)
  then
    match timeoutDecode tm with
    | (_, Some _) =>
        (0, Some (Errorf Codes.InvalidArgument
                    ("invalid grpc-timeout: " +:+ tm)))
    | (timeout, None) => (timeout, None)
    end
  else (timeout, None).

(** Lines 53-80: the pairs collected for the request, and the log lines. *)
Definition collectPairs (kvs : list (string * list string)) (req : Request)
  : list string * list string :=
  let pairs := [] in
  let pairs := projectHeader kvs pairs in
  let pairs := forwardedHost req pairs in
  forwardedFor req pairs.

(** Lines 82-84. *)
Definition applyTimeout (now : Z) (ctx : Context) (timeout : Z) : Context :=
  if negb (timeout =? 0) then WithTimeout now ctx timeout else ctx.

(** What a call leaves behind: the two results and the lines logged. *)
Record Outcome := mkOutcome {
  out_ctx : option Context;
  out_err : option rpcError;
  out_log : list string
}.

(** [AnnotateContext(ctx, req)], run with the package variable
    [DefaultContextTimeout], the clock reading [now] and the order [kvs] in
    which the loop visits [req.Header]. *)
Definition AnnotateContext (DefaultContextTimeout now : Z)
  (kvs : list (string * list string)) (ctx : Context) (req : Request)
  : Outcome :=
  match effectiveTimeout DefaultContextTimeout req with
  | (_, Some err) => mkOutcome None (Some err) []
  | (timeout, None) =>
      let '(pairs, log) := collectPairs kvs req in
      let ctx := applyTimeout now ctx timeout in
      if (length pairs =? 0)%nat then mkOutcome (Some ctx) None log
      else mkOutcome (Some (NewContext ctx (Pairs pairs))) None log
  end.

(** ** The server metadata carrier (context.go, lines 91-108) *)

(** NewServerMetadataContext creates a new context with ServerMetadata. *)
Definition NewServerMetadataContext (ctx : Context) (md : ServerMetadata)
  : Context :=
  WithValue ctx serverMetadataKey (VServerMetadata md).

(** ServerMetadataFromContext returns the ServerMetadata in ctx: the type
    assertion gives the zero value and [false] when the value found is not a
    [ServerMetadata]. *)
Definition ServerMetadataFromContext (ctx : Context) : ServerMetadata * bool :=
  match Value ctx serverMetadataKey with
  | Some (VServerMetadata md) => (md, true)
  | _ => (mkServerMetadata [] [], false)
  end.

(** ** The timeout token as the specification words it

    These definitions follow the specification, not the source: a token is
    [<decimal-digits><unit-char>], and the unit table is H = hour,
    M = minute, S = second, m = millisecond, u = microsecond,
    n = nanosecond.  The theorems compare the source with them. *)

Module Token.
Import Str.

Definition isDigit (c : ascii) : bool := (48 <=? byte c) && (byte c <=? 57).

Definition digit (c : ascii) : Z := byte c - 48.

Fixpoint allDigits (s : string) : bool :=
  match s with
  | EmptyString => true
  | String c r => isDigit c && allDigits r
  end.

(** The number written by the digits [s] after the number [n]. *)
Fixpoint decimalFrom (n : Z) (s : string) : Z :=
  match s with
  | EmptyString => n
  | String c r => decimalFrom (n * 10 + digit c) r
  end.

Definition decimalValue (s : string) : Z := decimalFrom 0 s.

(** [<decimal-digits>]: one digit or more. *)
Definition digits (s : string) : bool :=
  negb (String.eqb s EmptyString) && allDigits s.

(** The number an optionally signed decimal numeral writes. *)
Definition signedValue (p : string) : option Z :=
  match p with
  | String c r =>
      if Ascii.eqb c "+" then
        if digits r then Some (decimalValue r) else None
      else if Ascii.eqb c "-" then
        if digits r then Some (- decimalValue r) else None
      else if digits p then Some (decimalValue p) else None
  | EmptyString => None
  end.

(** The prefix parses as a base-10 integer within 64-bit range. *)
Definition parsesInt64 (p : string) : Prop :=
  exists n, signedValue p = Some n /\ Int.inInt64 n.

(** The prefix parses as a base-10 non-negative integer within 64-bit
    range. *)
Definition parsesNonNegInt64 (p : string) : Prop :=
  exists n, signedValue p = Some n /\ 0 <= n <= Int.maxInt64.

(** The unit table, in nanoseconds. *)
Definition unitDuration (u : ascii) : option Z :=
  if Ascii.eqb u "H" then Some 3600000000000
  else if Ascii.eqb u "M" then Some 60000000000
  else if Ascii.eqb u "S" then Some 1000000000
  else if Ascii.eqb u "m" then Some 1000000
  else if Ascii.eqb u "u" then Some 1000
  else if Ascii.eqb u "n" then Some 1
  else None.

(** A token is malformed when it is shorter than two bytes, or its last byte
    is no unit character, or the prefix before the last byte does not parse,
    for the given reading [parses] of what a prefix that parses is. *)
Definition malformed (parses : string -> Prop) (s : string) : Prop :=
  (len s < 2)%nat \/
  exists p u, s = snoc p u /\ (unitDuration u = None \/ ~ parses p).

End Token.

(** ** The projection and the forwarding pairs as the specification words
       them *)

Module PairSpec.

(** The pair one value of the header [name] gives, if any. *)
Definition projected (name val : string) : list (string * string) :=
  if String.eqb name "Authorization" then [("authorization", val)]
  else if String.prefix "Grpc-Metadata-" name
  then [(String.substring 14 (String.length name - 14) name, val)]
  else [].

(** The pairs of a whole header collection visited in the order [kvs]. *)
Definition headerPairs (kvs : list (string * list string))
  : list (string * string) :=
  flat_map (fun '(name, vals) => flat_map (projected name) vals) kvs.

Definition forwardedHostPairs (req : Request) : list (string * string) :=
  let explicit := Http.Get (Header req) "X-Forwarded-Host" in
  if String.eqb explicit EmptyString then
    if String.eqb (Host req) EmptyString then []
    else [("x-forwarded-host", Host req)]
  else [("x-forwarded-host", explicit)].

Definition forwardedForPairs (req : Request) : list (string * string) :=
  match Net.SplitHostPort (RemoteAddr req) with
  | (remoteIP, _, None) =>
      let existing := Http.Get (Header req) "X-Forwarded-For" in
      if String.eqb existing EmptyString then [("x-forwarded-for", remoteIP)]
      else [("x-forwarded-for", existing +:+ ", " +:+ remoteIP)]
  | (_, _, Some _) => []
  end.

Definition forwardingPairs (req : Request) : list (string * string) :=
  forwardedHostPairs req ++ forwardedForPairs req.

(** The sequence [k1; v1; k2; v2; ...] of a list of pairs. *)
Definition flatten (ps : list (string * string)) : list string :=
  flat_map (fun '(k, v) => [k; v]) ps.

(** A pair as it sits in a metadata set: its key in lower case. *)
Definition lowerKey (p : string * string) : string * string :=
  (Str.ToLower (fst p), snd p).

End PairSpec.

(** * Properties *)

(** ** Byte strings *)

Section StrFacts.
Import Str.

Lemma len_snoc p u : len (snoc p u) = S (len p).
Proof. induction p as [|c p IH]; simpl; [reflexivity | now rewrite <- IH]. Qed.

Lemma substring_whole s : String.substring 0 (String.length s) s = s.
Proof. induction s as [|c s IH]; simpl; [reflexivity | now rewrite IH]. Qed.

Lemma substring_app_l p r : String.substring 0 (String.length p) (p +:+ r) = p.
Proof.
  induction p as [|c p IH]; simpl.
  - now destruct r.
  - now rewrite IH.
Qed.

Lemma substring_app_r p r :
  String.substring (String.length p) (String.length r) (p +:+ r) = r.
Proof. induction p as [|c p IH]; simpl; [apply substring_whole | exact IH]. Qed.

Lemma at_snoc p u : at_ (snoc p u) (len p) = u.
Proof.
  unfold at_. induction p as [|c p IH]; simpl; [reflexivity | exact IH].
Qed.

Lemma slice_snoc p u : slice (snoc p u) 0 (len p) = p.
Proof. unfold slice. rewrite Nat.sub_0_r. apply substring_app_l. Qed.

Lemma snoc_inv s : s <> EmptyString -> exists p u, s = snoc p u.
Proof.
  induction s as [|c s IH]; [congruence | intros _].
  destruct s as [|c' s'].
  - now exists EmptyString, c.
  - destruct IH as (p & u & E); [congruence |].
    exists (String c p), u. exact (f_equal (String c) E).
Qed.

Lemma slice_tail c r : slice (String c r) 1 (len (String c r)) = r.
Proof.
  unfold slice, len. simpl. rewrite Nat.sub_0_r. apply substring_whole.
Qed.

End StrFacts.

(** ** [strconv.ParseInt] reads optionally signed decimal numerals *)

Section StrconvFacts.
Import Int Str Strconv Token.

Lemma maxUint64_eq : maxUint64 = 18446744073709551615.
Proof. reflexivity. Qed.

Lemma cutoff10_eq : cutoff10 = 1844674407370955162.
Proof. reflexivity. Qed.

Lemma byte_range c : 0 <= byte c < 256.
Proof.
  unfold byte. pose proof (N_ascii_bounded c) as H. lia.
Qed.

Lemma decimalFrom_ge n s : 0 <= n -> allDigits s = true -> n <= decimalFrom n s.
Proof.
  revert n. induction s as [|c r IH]; intros n Hn Hd; simpl in *; [lia |].
  apply andb_prop in Hd as [Hc Hr]. unfold isDigit in Hc.
  apply andb_prop in Hc as [H1 H2]. apply Z.leb_le in H1, H2.
  specialize (IH (n * 10 + digit c)). unfold digit in *.
  assert (0 <= n * 10 + (byte c - 48)) by lia. specialize (IH H Hr). lia.
Qed.

Lemma wrapU64_small x : 0 <= x <= maxUint64 -> wrapU64 x = x.
Proof.
  rewrite maxUint64_eq. intros H. unfold wrapU64. apply Z.mod_small. lia.
Qed.

Lemma wrapU64_once x :
  maxUint64 < x < 2 * 2 ^ 64 -> wrapU64 x = x - 2 ^ 64.
Proof.
  rewrite maxUint64_eq. intros H. unfold wrapU64.
  symmetry. apply (Z.mod_unique_pos x (2 ^ 64) 1); lia.
Qed.

(** The digit loop on digits: the number written, or a range error. *)
Lemma parseUintLoop_digits s : forall n,
  0 <= n <= maxUint64 -> allDigits s = true ->
  parseUintLoop s n =
    if decimalFrom n s <=? maxUint64 then (decimalFrom n s, None)
    else (maxUint64, Some ErrRange).
Proof.
  induction s as [|c r IH]; intros n Hn Hd.
  - simpl. destruct (Z.leb_spec n maxUint64); [reflexivity | lia].
  - simpl in Hd. apply andb_prop in Hd as [Hc Hr].
    cbn [parseUintLoop decimalFrom]. unfold isDigit in Hc. rewrite Hc.
    apply andb_prop in Hc as [H1 H2]. apply Z.leb_le in H1, H2.
    unfold digit.
    destruct (Z.leb_spec 10 (byte c - 48)) as [Hv|Hv]; [lia |].
    assert (Hge : n * 10 + (byte c - 48)
                  <= decimalFrom (n * 10 + (byte c - 48)) r)
      by (apply decimalFrom_ge; [lia | exact Hr]).
    rewrite maxUint64_eq in Hn.
    destruct (Z.leb_spec cutoff10 n) as [Hc10|Hc10];
      rewrite cutoff10_eq in Hc10.
    + destruct (Z.leb_spec (decimalFrom (n * 10 + (byte c - 48)) r)
                  maxUint64) as [Hle|Hle];
        [rewrite maxUint64_eq in Hle; lia | reflexivity].
    + cbv zeta. rewrite (wrapU64_small (n * 10)) by (rewrite maxUint64_eq; lia).
      destruct (Z_le_gt_dec (n * 10 + (byte c - 48)) maxUint64) as [Hfit|Hfit].
      * rewrite (wrapU64_small (n * 10 + (byte c - 48))) by lia.
        destruct (Z.ltb_spec (n * 10 + (byte c - 48)) (n * 10)); [lia |].
        destruct (Z.ltb_spec maxUint64 (n * 10 + (byte c - 48))); [lia |].
        simpl orb. cbv iota. apply IH; [lia | exact Hr].
      * rewrite (wrapU64_once (n * 10 + (byte c - 48)))
          by (rewrite maxUint64_eq in *; lia).
        rewrite maxUint64_eq in Hfit.
        destruct (Z.ltb_spec (n * 10 + (byte c - 48) - 2 ^ 64) (n * 10));
          [| lia].
        simpl orb. cbv iota.
        destruct (Z.leb_spec (decimalFrom (n * 10 + (byte c - 48)) r)
                    maxUint64) as [Hle|Hle];
          [rewrite maxUint64_eq in Hle; lia | reflexivity].
Qed.

(** The digit loop succeeds on digits only. *)
Lemma parseUintLoop_ok_digits s : forall n v,
  parseUintLoop s n = (v, None) -> allDigits s = true.
Proof.
  induction s as [|c r IH]; intros n v H; [reflexivity |].
  cbn [parseUintLoop allDigits] in *. unfold isDigit.
  destruct ((48 <=? byte c) && (byte c <=? 57)) eqn:Hc.
  - simpl. destruct (10 <=? byte c - 48); [discriminate |].
    destruct (cutoff10 <=? n); [discriminate |]. cbv zeta in H.
    match type of H with (if ?b then _ else _) = _ => destruct b end;
      [discriminate | eapply IH; exact H].
  - exfalso. apply andb_false_iff in Hc.
    destruct ((97 <=? byte c) && (byte c <=? 122)) eqn:Ha.
    + apply andb_prop in Ha as [A1 A2]. apply Z.leb_le in A1, A2.
      destruct (Z.leb_spec 10 (byte c - 97 + 10)); [discriminate | lia].
    + destruct ((65 <=? byte c) && (byte c <=? 90)) eqn:Hb; [| discriminate].
      apply andb_prop in Hb as [A1 A2]. apply Z.leb_le in A1, A2.
      destruct (Z.leb_spec 10 (byte c - 65 + 10)); [discriminate | lia].
Qed.

Lemma parseUintLoop_range s : forall n v,
  parseUintLoop s n = (v, Some ErrRange) -> v = maxUint64.
Proof.
  induction s as [|c r IH]; intros n v H; [discriminate |].
  cbn [parseUintLoop] in H.
  repeat match type of H with
  | (match (if ?b then _ else _) with _ => _ end) = _ => destruct b
  | (if ?b then _ else _) = _ => destruct b
  | (let _ := _ in _) = _ => cbv zeta in H
  end; try discriminate; try (injection H as <-; reflexivity).
  all: eapply IH; exact H.
Qed.

Lemma ParseUint_digits r :
  digits r = true ->
  ParseUint r =
    if decimalValue r <=? maxUint64 then (decimalValue r, None)
    else (maxUint64, Some (mkNumError "ParseUint" r ErrRange)).
Proof.
  unfold digits, ParseUint, decimalValue. intros H.
  apply andb_prop in H as [Hne Hd].
  destruct r as [|c r']; [discriminate |].
  change (len (String c r') <? 1)%nat with false. cbv iota.
  rewrite (parseUintLoop_digits _ 0)
    by (rewrite ?maxUint64_eq; first [lia | exact Hd]).
  now destruct (decimalFrom 0 (String c r') <=? maxUint64).
Qed.

Lemma ParseUint_not_digits r :
  digits r = false ->
  exists v e, ParseUint r = (v, Some e) /\ (Err_ e = ErrRange -> v = maxUint64).
Proof.
  unfold digits, ParseUint. intros H.
  destruct r as [|c r'].
  - eexists _, _. split; [reflexivity | discriminate].
  - change (len (String c r') <? 1)%nat with false. cbv iota.
    simpl negb in H. rewrite andb_true_l in H.
    destruct (parseUintLoop (String c r') 0) as [v [e|]] eqn:E.
    + eexists _, _. split; [reflexivity |]. simpl. intros ->.
      eapply parseUintLoop_range; exact E.
    + apply parseUintLoop_ok_digits in E. congruence.
Qed.

Lemma wrapI64_small x : inInt64 x -> wrapI64 x = x.
Proof.
  unfold inInt64, minInt64, maxInt64, wrapI64. intros H.
  rewrite Z.mod_small; lia.
Qed.

Lemma decimalValue_nonneg r : allDigits r = true -> 0 <= decimalValue r.
Proof. intros H. apply (decimalFrom_ge 0 r); [lia | exact H]. Qed.

Lemma ParseInt_afterSign c r :
  ParseInt (String c r) =
    if Ascii.eqb c "+" then afterSign false r (String c r)
    else if Ascii.eqb c "-" then afterSign true r (String c r)
    else afterSign false (String c r) (String c r).
Proof.
  unfold ParseInt, afterSign.
  change (len (String c r) =? 0)%nat with false. cbv iota.
  change (at_ (String c r) 0) with c. rewrite slice_tail.
  destruct (Ascii.eqb c "+"); [reflexivity |].
  destruct (Ascii.eqb c "-"); reflexivity.
Qed.

Lemma afterSign_digits (neg : bool) r s0 :
  digits r = true ->
  let n := if neg then - decimalValue r else decimalValue r in
  (inInt64 n -> afterSign neg r s0 = (n, None)) /\
  (~ inInt64 n -> snd (afterSign neg r s0) <> None).
Proof.
  intros Hd n. unfold afterSign. rewrite (ParseUint_digits r Hd).
  assert (H0 : 0 <= decimalValue r).
  { apply decimalValue_nonneg. unfold digits in Hd. now apply andb_prop in Hd. }
  unfold inInt64, minInt64, maxInt64.
  destruct (Z.leb_spec (decimalValue r) maxUint64) as [Hu|Hu];
    rewrite maxUint64_eq in Hu; cbv iota beta zeta.
  - destruct neg; subst n; simpl negb; simpl andb.
    + destruct (Z.ltb_spec (2 ^ 63) (decimalValue r)) as [Hc|Hc].
      * split; [lia | discriminate].
      * split; [intros _ | lia].
        destruct (Z.eq_dec (decimalValue r) (2 ^ 63)) as [->|Hne];
          [reflexivity |].
        rewrite (wrapI64_small (decimalValue r))
          by (unfold inInt64, minInt64, maxInt64; lia).
        rewrite wrapI64_small by (unfold inInt64, minInt64, maxInt64; lia).
        reflexivity.
    + destruct (Z.leb_spec (2 ^ 63) (decimalValue r)) as [Hc|Hc].
      * split; [lia | discriminate].
      * split; [intros _ | lia].
        rewrite wrapI64_small by (unfold inInt64, minInt64, maxInt64; lia).
        reflexivity.
  - change (maxUint64) with 18446744073709551615.
    destruct neg; subst n; simpl; (split; [lia | discriminate]).
Qed.

Lemma afterSign_not_digits neg r s0 :
  digits r = false -> snd (afterSign neg r s0) <> None.
Proof.
  intros Hd. unfold afterSign.
  destruct (ParseUint_not_digits r Hd) as (v & [f m e] & -> & Hv).
  destruct e; [discriminate |].
  rewrite (Hv eq_refl). destruct neg; discriminate.
Qed.

Lemma ParseInt_ok p n :
  signedValue p = Some n -> inInt64 n -> ParseInt p = (n, None).
Proof.
  destruct p as [|c r]; [discriminate |]. rewrite ParseInt_afterSign.
  cbn [signedValue]. intros H Hn.
  destruct (Ascii.eqb c "+"); [| destruct (Ascii.eqb c "-")].
  - destruct (digits r) eqn:Hd; [| discriminate]. injection H as <-.
    now apply (afterSign_digits false r _ Hd).
  - destruct (digits r) eqn:Hd; [| discriminate]. injection H as <-.
    now apply (afterSign_digits true r _ Hd).
  - destruct (digits (String c r)) eqn:Hd; [| discriminate]. injection H as <-.
    now apply (afterSign_digits false _ _ Hd).
Qed.

Lemma ParseInt_err p :
  (forall n, signedValue p = Some n -> ~ inInt64 n) -> snd (ParseInt p) <> None.
Proof.
  destruct p as [|c r]; [discriminate |]. rewrite ParseInt_afterSign.
  cbn [signedValue]. intros H.
  destruct (Ascii.eqb c "+"); [| destruct (Ascii.eqb c "-")].
  - destruct (digits r) eqn:Hd; [| now apply afterSign_not_digits].
    apply (afterSign_digits false r _ Hd). now apply H.
  - destruct (digits r) eqn:Hd; [| now apply afterSign_not_digits].
    apply (afterSign_digits true r _ Hd). now apply H.
  - destruct (digits (String c r)) eqn:Hd; [| now apply afterSign_not_digits].
    apply (afterSign_digits false _ _ Hd). now apply H.
Qed.

(** [ParseInt] succeeds exactly on the optionally signed decimal numerals of
    an [int64], with the number written. *)
Lemma ParseInt_iff p n :
  ParseInt p = (n, None) <-> signedValue p = Some n /\ inInt64 n.
Proof.
  split; [| intros [H1 H2]; now apply ParseInt_ok].
  intros H. destruct (signedValue p) as [m|] eqn:E.
  - destruct (Z_le_dec minInt64 m) as [Hlo|Hlo];
      [destruct (Z_le_dec m maxInt64) as [Hhi|Hhi] |].
    + rewrite (ParseInt_ok p m E (conj Hlo Hhi)) in H. injection H as <-.
      split; [reflexivity | now split].
    + exfalso. apply (ParseInt_err p); [| now rewrite H].
      intros k Hk [_ ?]. rewrite E in Hk. injection Hk as <-. contradiction.
    + exfalso. apply (ParseInt_err p); [| now rewrite H].
      intros k Hk [? _]. rewrite E in Hk. injection Hk as <-. contradiction.
  - exfalso. apply (ParseInt_err p); [| now rewrite H]. intros k Hk. congruence.
Qed.

Lemma ParseInt_fails_iff p : snd (ParseInt p) <> None <-> ~ parsesInt64 p.
Proof.
  split.
  - intros H (n & Hs & Hn). apply H. now rewrite (ParseInt_ok p n Hs Hn).
  - intros H. apply ParseInt_err. intros n Hs Hn. apply H. now exists n.
Qed.

End StrconvFacts.

(** ** The timeout codec *)

Section CodecFacts.
Import Int Str Strconv Token.

(** The unit table of the source is the table of the specification. *)
Lemma timeoutUnitToDuration_table u :
  timeoutUnitToDuration u =
    match unitDuration u with
    | Some d => (d, true)
    | None => (0, false)
    end.
Proof.
  unfold timeoutUnitToDuration, unitDuration.
  repeat match goal with
  | |- context [Ascii.eqb u ?c] => destruct (Ascii.eqb u c); [reflexivity |]
  end.
  reflexivity.
Qed.

(** [timeoutDecode] on a token read as its prefix [p] and last byte [u]. *)
Lemma timeoutDecode_snoc p u :
  timeoutDecode (snoc p u) =
    if (len p <? 1)%nat then (0, Some (TooShort (snoc p u)))
    else
      match unitDuration u with
      | None => (0, Some (UnitNotRecognized (snoc p u)))
      | Some d =>
          match ParseInt p with
          | (_, Some err) => (0, Some (BadNumber err))
          | (t, None) => (wrapI64 (d * t), None)
          end
      end.
Proof.
  unfold timeoutDecode. rewrite len_snoc.
  change (S (len p) <? 2)%nat with (len p <? 1)%nat.
  destruct (len p <? 1)%nat; [reflexivity |].
  replace (S (len p) - 1)%nat with (len p) by lia.
  rewrite at_snoc, slice_snoc, timeoutUnitToDuration_table.
  now destruct (unitDuration u).
Qed.

Lemma digits_signedValue ds :
  digits ds = true -> signedValue ds = Some (decimalValue ds).
Proof.
  intros H. destruct ds as [|c r]; [discriminate |].
  cbn [signedValue]. pose proof H as H'. unfold digits in H'.
  apply andb_prop in H' as [_ Hd]. cbn [allDigits] in Hd.
  apply andb_prop in Hd as [Hc _]. unfold isDigit in Hc.
  apply andb_prop in Hc as [H1 H2]. apply Z.leb_le in H1, H2.
  destruct (Ascii.eqb_spec c "+") as [->|_];
    [change (byte "+") with 43 in H1; lia |].
  destruct (Ascii.eqb_spec c "-") as [->|_];
    [change (byte "-") with 45 in H1; lia |].
  now rewrite H.
Qed.

End CodecFacts.

Section CodecClaims.
Import Int Str Strconv Token.

Lemma snoc_inj p q u v : snoc p u = snoc q v -> p = q /\ u = v.
Proof.
  revert q. induction p as [|a p IH]; intros [|b q] H; simpl in H.
  - injection H as ->. now split.
  - injection H as -> H. destruct q; discriminate.
  - injection H as -> H. destruct p; discriminate.
  - injection H as -> H. apply IH in H as [-> ->]. now split.
Qed.

(** C1 (as amended): for every token [<decimal-digits><unit-char>] whose
    unit is one of H, M, S, m, u, n and whose digits write an [int64], the
    decode succeeds and returns the unit's duration times the number, reduced
    to a signed 64-bit integer; it is the exact product whenever that product
    is itself an [int64]. *)
Theorem C1_timeoutDecode_valid_token ds u d :
  digits ds = true ->
  decimalValue ds <= maxInt64 ->
  unitDuration u = Some d ->
  timeoutDecode (snoc ds u)
  = (wrapI64 (d * decimalValue ds), None) /\
  (inInt64 (d * decimalValue ds) ->
   timeoutDecode (snoc ds u) = (d * decimalValue ds, None)).
Proof.
  intros Hd Hmax Hu.
  assert (E : timeoutDecode (snoc ds u)
              = (wrapI64 (d * decimalValue ds), None)).
  { rewrite timeoutDecode_snoc, Hu.
    assert (Hlen : (len ds <? 1)%nat = false)
      by (destruct ds; [discriminate | reflexivity]).
    rewrite Hlen.
    rewrite (ParseInt_ok ds (decimalValue ds)); [reflexivity | |].
    - now apply digits_signedValue.
    - split; [| exact Hmax].
      unfold digits in Hd. apply andb_prop in Hd as [_ Hd].
      apply decimalValue_nonneg in Hd. unfold minInt64. lia. }
  split; [exact E |].
  intros Hin. rewrite E. now rewrite wrapI64_small.
Qed.

Lemma C1_timeoutDecode_valid_token_witness :
  timeoutDecode "500m" = (500 * Time.Millisecond, None).
Proof.
  apply (C1_timeoutDecode_valid_token "500" "m" 1000000);
    [reflexivity | vm_compute; discriminate | reflexivity
    | vm_compute; split; discriminate].
Defined.

(** C1 as worded fails where the product leaves the 64-bit range: the token
    of [2^51] hours is well formed and decodes to the zero duration. *)
Lemma C1_overflow_counterexample :
  digits "2251799813685248" = true /\
  decimalValue "2251799813685248" <= maxInt64 /\
  unitDuration "H" = Some 3600000000000 /\
  timeoutDecode "2251799813685248H" = (0, None) /\
  timeoutDecode "2251799813685248H"
    <> (3600000000000 * decimalValue "2251799813685248", None).
Proof.
  repeat split; try reflexivity; vm_compute; discriminate.
Qed.

(** C2 (as amended): the decode fails exactly when the token is shorter than
    two bytes, or its last byte is none of the six unit characters, or the
    prefix before it is not an optionally signed base-10 numeral of an
    [int64]; on every other token it succeeds. *)
Theorem C2_timeoutDecode_fails_iff s :
  (snd (timeoutDecode s) <> None <-> malformed parsesInt64 s) /\
  (~ malformed parsesInt64 s -> exists d, timeoutDecode s = (d, None)).
Proof.
  assert (Hiff : snd (timeoutDecode s) <> None <-> malformed parsesInt64 s).
  { unfold malformed. destruct (Nat.ltb_spec (len s) 2) as [Hlt|Hge].
    - assert (E : timeoutDecode s = (0, Some (TooShort s))).
      { unfold timeoutDecode. apply Nat.ltb_lt in Hlt. now rewrite Hlt. }
      rewrite E. split; [intros _; now left | intros _; simpl; discriminate].
    - destruct (snoc_inv s) as (p & u & ->);
        [destruct s; [simpl in Hge; lia | discriminate] |].
      rewrite len_snoc in Hge |- *.
      assert (Hlen : (len p <? 1)%nat = false) by (apply Nat.ltb_ge; lia).
      rewrite timeoutDecode_snoc, Hlen.
      assert (R : forall P : Prop,
        (P <-> unitDuration u = None \/ ~ parsesInt64 p) ->
        (P <-> (S (len p) < 2)%nat \/
           exists p' u', snoc p u = snoc p' u' /\
             (unitDuration u' = None \/ ~ parsesInt64 p'))).
      { intros P HP. rewrite HP. split.
        - intros H. right. now exists p, u.
        - intros [H | (p' & u' & E & H)]; [lia |].
          apply snoc_inj in E as [-> ->]. exact H. }
      refine (R _ _). clear R. destruct (unitDuration u) as [d|].
      + rewrite <- ParseInt_fails_iff.
        destruct (ParseInt p) as [t [e|]]; simpl; split.
        * intros _. right. discriminate.
        * intros _. discriminate.
        * intros H. now destruct H.
        * intros [H | H]; [discriminate | now destruct H].
      + simpl. split; [intros _; now left | intros _; discriminate]. }
  split; [exact Hiff |].
  intros Hok. destruct (timeoutDecode s) as [d [e|]].
  - destruct Hok. apply Hiff. discriminate.
  - now exists d.
Qed.

Lemma C2_timeoutDecode_fails_iff_witness :
  snd (timeoutDecode "abcS") <> None /\
  exists d, timeoutDecode "10n" = (d, None).
Proof.
  split.
  - apply (proj1 (C2_timeoutDecode_fails_iff "abcS")).
    right. exists "abc"%string, "S"%char. split; [reflexivity |].
    right. intros (n & Hn & _). discriminate Hn.
  - apply (proj2 (C2_timeoutDecode_fails_iff "10n")).
    intros [H | (p & u & E & H)]; [simpl in H; lia |].
    apply (snoc_inj "10" p "n" u) in E as [<- <-].
    destruct H as [H | H]; [discriminate |].
    apply H. exists 10. split; [reflexivity |].
    split; vm_compute; discriminate.
Defined.

(** C2 as worded fails on a signed prefix: ["-5S"] is malformed when the
    prefix has to write a non-negative integer, and yet it decodes, to minus
    five seconds. *)
Lemma C2_negative_prefix_counterexample :
  malformed parsesNonNegInt64 "-5S" /\
  timeoutDecode "-5S" = (-5000000000, None).
Proof.
  split; [| reflexivity].
  right. exists "-5"%string, "S"%char. split; [reflexivity |].
  right. intros (n & Hn & Hpos). vm_compute in Hn. injection Hn as <-. lia.
Qed.

End CodecClaims.

(** ** Collecting the pairs *)

Section PairFacts.
Import Str PairSpec.

Lemma HasPrefix_prefix s p : HasPrefix s p = String.prefix p s.
Proof.
  unfold HasPrefix, slice, len. rewrite Nat.sub_0_r.
  revert s. induction p as [|a p IH]; intros s.
  - simpl. now destruct s.
  - destruct s as [|b s]; [reflexivity |].
    specialize (IH s). cbn [String.length String.substring String.prefix].
    change (S (String.length p) <=? S (String.length s))%nat
      with (String.length p <=? String.length s)%nat.
    destruct (ascii_dec a b) as [->|Hab].
    + rewrite <- IH.
      destruct (String.length p <=? String.length s)%nat; [| reflexivity].
      simpl. cbn [String.eqb]. now rewrite Ascii.eqb_refl.
    + destruct (String.length p <=? String.length s)%nat; [| reflexivity].
      simpl. cbn [String.eqb].
      destruct (Ascii.eqb_spec b a) as [->|_]; [congruence | reflexivity].
Qed.

Lemma prefix_app p r : String.prefix p (p +:+ r) = true.
Proof.
  induction p as [|a p IH]; simpl; [now destruct r |].
  destruct (ascii_dec a a); [exact IH | congruence].
Qed.

Lemma prefix_inv p s : String.prefix p s = true -> exists r, s = p +:+ r.
Proof.
  revert s. induction p as [|a p IH]; intros s H.
  - now exists s.
  - destruct s as [|b s]; [discriminate |]. simpl in H.
    destruct (ascii_dec a b) as [->|]; [| discriminate].
    destruct (IH s H) as [r ->]. now exists r.
Qed.

Lemma projectValue_projected key pairs val :
  projectValue key pairs val = pairs ++ flatten (projected key val).
Proof.
  unfold projectValue, projected, append2.
  destruct (String.eqb key "Authorization"); [reflexivity |].
  rewrite HasPrefix_prefix.
  change MetadataHeaderPrefix with "Grpc-Metadata-"%string.
  destruct (String.prefix "Grpc-Metadata-" key); [reflexivity |].
  simpl. now rewrite app_nil_r.
Qed.

Lemma flatten_app ps qs : flatten (ps ++ qs) = flatten ps ++ flatten qs.
Proof. unfold flatten. apply flat_map_app. Qed.

Lemma projectValues_projected key vals : forall pairs,
  fold_left (projectValue key) vals pairs
  = pairs ++ flatten (flat_map (projected key) vals).
Proof.
  induction vals as [|v vals IH]; intros pairs; simpl.
  - now rewrite app_nil_r.
  - rewrite IH, projectValue_projected, flatten_app. now rewrite <- app_assoc.
Qed.

Lemma projectHeaderheaderPairs kvs : forall pairs,
  projectHeader kvs pairs = pairs ++ flatten (headerPairs kvs).
Proof.
  unfold projectHeader, headerPairs.
  induction kvs as [|[key vals] kvs IH]; intros pairs; simpl.
  - now rewrite app_nil_r.
  - rewrite IH, projectValues_projected, flatten_app. now rewrite <- app_assoc.
Qed.

Lemma forwardedHost_pairs req pairs :
  forwardedHost req pairs = pairs ++ flatten (forwardedHostPairs req).
Proof.
  unfold forwardedHost, forwardedHostPairs, append2.
  change xForwardedHost with "X-Forwarded-Host"%string.
  change (ToLower "X-Forwarded-Host") with "x-forwarded-host"%string.
  destruct (String.eqb (Http.Get (Header req) "X-Forwarded-Host") EmptyString);
    simpl; [| reflexivity].
  destruct (String.eqb (Host req) EmptyString); simpl;
    [now rewrite app_nil_r | reflexivity].
Qed.

Lemma SplitHostPort_empty : snd (Net.SplitHostPort EmptyString) <> None.
Proof. discriminate. Qed.

Lemma forwardedFor_pairs req pairs :
  fst (forwardedFor req pairs) = pairs ++ flatten (forwardedForPairs req).
Proof.
  unfold forwardedFor, forwardedForPairs, append2.
  change xForwardedFor with "X-Forwarded-For"%string.
  change (ToLower "X-Forwarded-For") with "x-forwarded-for"%string.
  destruct (String.eqb_spec (RemoteAddr req) EmptyString) as [->|_]; simpl.
  - now rewrite app_nil_r.
  - destruct (Net.SplitHostPort (RemoteAddr req)) as [[ip port] [e|]]; simpl.
    + now rewrite app_nil_r.
    + now destruct
        (String.eqb (Http.Get (Header req) "X-Forwarded-For") EmptyString).
Qed.

Lemma collectPairs_pairs kvs req :
  fst (collectPairs kvs req)
  = flatten (headerPairs kvs) ++ flatten (forwardingPairs req).
Proof.
  unfold collectPairs, forwardingPairs.
  rewrite forwardedFor_pairs, forwardedHost_pairs, projectHeaderheaderPairs.
  rewrite flatten_app. simpl. now rewrite <- app_assoc.
Qed.

Lemma Pairs_flatten ps : Pairs (flatten ps) = map lowerKey ps.
Proof.
  induction ps as [|[k v] ps IH]; simpl; [reflexivity | now rewrite IH].
Qed.

End PairFacts.

(** ** Contexts *)

Section ContextFacts.

Lemma FromContext_applyTimeout now ctx t :
  FromContext (applyTimeout now ctx t) = FromContext ctx.
Proof. unfold applyTimeout. now destruct (negb (t =? 0)). Qed.

Lemma Deadline_applyTimeout now ctx t :
  Deadline (applyTimeout now ctx t)
  = if t =? 0 then Deadline ctx else Some (now + t).
Proof. unfold applyTimeout. now destruct (t =? 0). Qed.

Lemma FromContext_NewContext ctx md :
  FromContext (NewContext ctx md) = (md, true).
Proof. reflexivity. Qed.

End ContextFacts.

(** ** [AnnotateContext] *)

Section AnnotateFacts.
Import Str PairSpec.

Variables (DefaultContextTimeout now : Z).
Variable kvs : list (string * list string).
Variable ctx : Context.
Variable req : Request.

Let tm := Http.Get (Header req) "Grpc-Timeout".

Lemma effectiveTimeout_absent :
  tm = EmptyString ->
  effectiveTimeout DefaultContextTimeout req = (DefaultContextTimeout, None).
Proof.
  unfold effectiveTimeout.
  change metadataGrpcTimeout with "Grpc-Timeout"%string.
  fold tm. now intros ->.
Qed.

Lemma effectiveTimeout_present :
  tm <> EmptyString ->
  effectiveTimeout DefaultContextTimeout req =
    match timeoutDecode tm with
    | (_, Some _) =>
        (0, Some (mkRpcError Codes.InvalidArgument
                    ("invalid grpc-timeout: " +:+ tm)))
    | (t, None) => (t, None)
    end.
Proof.
  unfold effectiveTimeout.
  change metadataGrpcTimeout with "Grpc-Timeout"%string.
  fold tm. intros H.
  destruct (String.eqb_spec tm EmptyString); [contradiction |].
  simpl negb. cbv iota. now destruct (timeoutDecode tm) as [t [e|]].
Qed.

(** The call in one equation: the error of the timeout step, or the context
    with the deadline and, if there are pairs, the metadata set. *)
Lemma AnnotateContext_eq :
  AnnotateContext DefaultContextTimeout now kvs ctx req =
    match effectiveTimeout DefaultContextTimeout req with
    | (_, Some err) => mkOutcome None (Some err) []
    | (t, None) =>
        let ps := headerPairs kvs ++ forwardingPairs req in
        mkOutcome
          (Some match ps with
                | [] => applyTimeout now ctx t
                | _ => NewContext (applyTimeout now ctx t) (map lowerKey ps)
                end)
          None (snd (collectPairs kvs req))
    end.
Proof.
  unfold AnnotateContext.
  destruct (effectiveTimeout DefaultContextTimeout req) as [t [e|]];
    [reflexivity |].
  pose proof (collectPairs_pairs kvs req) as E.
  destruct (collectPairs kvs req) as [pairs log]. simpl in E. subst pairs.
  rewrite <- flatten_app. cbv zeta.
  destruct (headerPairs kvs ++ forwardingPairs req) as [|[k v] ps] eqn:Eps.
  - reflexivity.
  - rewrite Pairs_flatten. reflexivity.
Qed.

End AnnotateFacts.

Section AnnotateClaims.
Import Str PairSpec.

(** C3: when the request carries a non-empty Grpc-Timeout value that
    [timeoutDecode] rejects, [AnnotateContext] returns the nil context and an
    error of class InvalidArgument naming the token; and in no call does it
    return a context together with an error. *)
Theorem C3_rejected_timeout_is_fatal D now kvs ctx req :
  (Http.Get (Header req) "Grpc-Timeout" <> EmptyString ->
   snd (timeoutDecode (Http.Get (Header req) "Grpc-Timeout")) <> None ->
   AnnotateContext D now kvs ctx req =
     mkOutcome None
       (Some (mkRpcError Codes.InvalidArgument
                ("invalid grpc-timeout: "
                 +:+ Http.Get (Header req) "Grpc-Timeout")))
       []) /\
  (out_ctx (AnnotateContext D now kvs ctx req) = None <->
   out_err (AnnotateContext D now kvs ctx req) <> None).
Proof.
  split.
  - intros Hne Hbad.
    rewrite AnnotateContext_eq, effectiveTimeout_present by exact Hne.
    destruct (timeoutDecode (Http.Get (Header req) "Grpc-Timeout")) as [t [e|]];
      [reflexivity | now destruct Hbad].
  - rewrite AnnotateContext_eq.
    destruct (effectiveTimeout D req) as [t [e|]]; simpl;
      split; intros H; try discriminate; try reflexivity; now destruct H.
Qed.

Lemma C3_rejected_timeout_is_fatal_witness :
  AnnotateContext 0 100 [("Grpc-Timeout", ["bogus"])] Background
    (mkRequest {[ "Grpc-Timeout" := ["bogus"] ]} EmptyString EmptyString) =
  mkOutcome None
    (Some (mkRpcError Codes.InvalidArgument "invalid grpc-timeout: bogus")) [].
Proof.
  etransitivity.
  - apply (proj1 (C3_rejected_timeout_is_fatal 0 100
                    [("Grpc-Timeout", ["bogus"])] Background
                    (mkRequest {[ "Grpc-Timeout" := ["bogus"] ]}
                       EmptyString EmptyString)));
      vm_compute; discriminate.
  - vm_compute. reflexivity.
Defined.

(** C4: the header loop appends, for the entries of the header in the order
    visited, the pairs of each entry; an entry named exactly [Authorization]
    gives [(authorization, v)] for each of its values [v], an entry named
    [Grpc-Metadata-<rest>] gives [(<rest>, v)] for each value, with [<rest>]
    kept as it is, any other entry gives nothing, and the values of one entry
    keep their order.  The loop visits every entry of the header once. *)
Theorem C4_header_projection (h : Http.Header) kvs :
  Http.rangeOf h kvs ->
  (forall pairs,
     projectHeader kvs pairs = pairs ++ flatten (headerPairs kvs)) /\
  headerPairs kvs
    = flat_map (fun '(name, vals) => flat_map (projected name) vals) kvs /\
  (forall name vals, (name, vals) ∈ kvs <-> h !! name = Some vals) /\
  NoDup (kvs.*1) /\
  (forall vals,
     flat_map (projected "Authorization") vals
     = map (fun v => ("authorization"%string, v)) vals) /\
  (forall rest vals,
     flat_map (projected ("Grpc-Metadata-" +:+ rest)) vals
     = map (fun v => (rest, v)) vals) /\
  (forall name vals,
     name <> "Authorization"%string ->
     (forall rest, name <> "Grpc-Metadata-" +:+ rest) ->
     flat_map (projected name) vals = []).
Proof.
  intros Hr. unfold Http.rangeOf in Hr.
  split; [apply projectHeaderheaderPairs |].
  split; [reflexivity |].
  split; [intros name vals; rewrite Hr; apply elem_of_map_to_list |].
  split; [rewrite Hr; apply NoDup_fst_map_to_list |].
  split; [| split].
  - intros vals. induction vals as [|v vals IH]; [reflexivity |].
    cbn [flat_map map]. rewrite IH. reflexivity.
  - intros rest vals. induction vals as [|v vals IH]; [reflexivity |].
    cbn [flat_map map]. rewrite IH. unfold projected.
    change (String.eqb ("Grpc-Metadata-" +:+ rest) "Authorization") with false.
    cbv iota. rewrite prefix_app.
    change (String.length ("Grpc-Metadata-" +:+ rest))
      with (14 + String.length rest)%nat.
    replace (14 + String.length rest - 14)%nat with (String.length rest) by lia.
    change 14%nat with (String.length "Grpc-Metadata-") at 1.
    now rewrite substring_app_r.
  - intros name vals Hna Hnp. induction vals as [|v vals IH]; [reflexivity |].
    cbn [flat_map]. rewrite IH. unfold projected.
    destruct (String.eqb_spec name "Authorization"); [contradiction |].
    destruct (String.prefix "Grpc-Metadata-" name) eqn:Hp; [| reflexivity].
    apply prefix_inv in Hp as [rest ->]. now destruct (Hnp rest).
Qed.

Lemma C4_header_projection_witness :
  projectHeader
    (map_to_list
       (<["Grpc-Metadata-Foo" := ["bar"; "baz"]]>
          (<["Accept" := ["*/*"]]> {[ "Authorization" := ["Bearer xyz"] ]})))
    ["k"; "v"]
  = ["k"; "v"; "Foo"; "bar"; "Foo"; "baz"; "authorization"; "Bearer xyz"]
    %string.
Proof.
  etransitivity.
  - apply (C4_header_projection
      (<["Grpc-Metadata-Foo" := ["bar"; "baz"]]>
         (<["Accept" := ["*/*"]]> {[ "Authorization" := ["Bearer xyz"] ]}))).
    unfold Http.rangeOf. reflexivity.
  - vm_compute. reflexivity.
Defined.



(** C6: in the metadata set attached to the returned context, the pairs of
    the header projection come before the pairs of the forwarding step, and
    the pairs stand in the order in which they were collected, duplicate keys
    kept, each with its key in lower case. *)
Theorem C6_metadata_order D now kvs ctx req t :
  effectiveTimeout D req = (t, None) ->
  headerPairs kvs ++ forwardingPairs req <> [] ->
  fst (collectPairs kvs req)
  = projectHeader kvs [] ++ flatten (forwardingPairs req) /\
  projectHeader kvs [] = flatten (headerPairs kvs) /\
  exists c,
    out_ctx (AnnotateContext D now kvs ctx req) = Some c /\
    FromContext c
    = (map lowerKey (headerPairs kvs) ++ map lowerKey (forwardingPairs req),
       true).
Proof.
  intros Ht Hne.
  split; [| split].
  - rewrite collectPairs_pairs. now rewrite (projectHeaderheaderPairs kvs []).
  - apply (projectHeaderheaderPairs kvs []).
  - rewrite AnnotateContext_eq, Ht. cbv zeta.
    destruct (headerPairs kvs ++ forwardingPairs req) as [|p ps] eqn:E;
      [contradiction |].
    eexists. split; [reflexivity |].
    rewrite FromContext_NewContext, <- E. now rewrite map_app.
Qed.

Lemma C6_metadata_order_witness :
  exists c,
    out_ctx (AnnotateContext 0 100
      [("Grpc-Metadata-X-Forwarded-Host", ["a"; "b"])] Background
      (mkRequest {[ "Grpc-Metadata-X-Forwarded-Host" := ["a"; "b"] ]}
         "example.com" "10.0.0.5:4321")) = Some c /\
    FromContext c
    = ([("x-forwarded-host", "a"); ("x-forwarded-host", "b");
        ("x-forwarded-host", "example.com"); ("x-forwarded-for", "10.0.0.5")]
       %string, true).
Proof.
  destruct (C6_metadata_order 0 100
      [("Grpc-Metadata-X-Forwarded-Host", ["a"; "b"])] Background
      (mkRequest {[ "Grpc-Metadata-X-Forwarded-Host" := ["a"; "b"] ]}
         "example.com" "10.0.0.5:4321") 0) as (_ & _ & c & H1 & H2).
  - vm_compute. reflexivity.
  - vm_compute. discriminate.
  - exists c. split; [exact H1 |]. rewrite H2. vm_compute. reflexivity.
Defined.

(** C7: with the effective timeout [t] (the decoded Grpc-Timeout value when
    the header has one, else [DefaultContextTimeout]), the call succeeds and
    the returned context has the deadline [now + t] when [t] is not zero, and
    the deadline of the context passed in when [t] is zero. *)
Theorem C7_deadline_from_effective_timeout D now kvs ctx req t :
  (Http.Get (Header req) "Grpc-Timeout" = EmptyString /\ t = D) \/
  (Http.Get (Header req) "Grpc-Timeout" <> EmptyString /\
   timeoutDecode (Http.Get (Header req) "Grpc-Timeout") = (t, None)) ->
  exists c,
    out_ctx (AnnotateContext D now kvs ctx req) = Some c /\
    out_err (AnnotateContext D now kvs ctx req) = None /\
    (c = applyTimeout now ctx t \/
     exists md, c = NewContext (applyTimeout now ctx t) md) /\
    (t <> 0 ->
     applyTimeout now ctx t = WithTimeout now ctx t /\
     Deadline c = Some (now + t)) /\
    (t = 0 -> applyTimeout now ctx t = ctx /\ Deadline c = Deadline ctx).
Proof.
  intros H.
  assert (Ht : effectiveTimeout D req = (t, None)).
  { destruct H as [[H ->] | [H E]].
    - now apply effectiveTimeout_absent.
    - rewrite effectiveTimeout_present by exact H. now rewrite E. }
  rewrite AnnotateContext_eq, Ht. cbv zeta.
  eexists. split; [reflexivity |]. split; [reflexivity |].
  assert (Hd : forall md,
    Deadline match headerPairs kvs ++ forwardingPairs req with
             | [] => applyTimeout now ctx t
             | _ :: _ => NewContext (applyTimeout now ctx t) md
             end = Deadline (applyTimeout now ctx t))
    by (intros md; now destruct (headerPairs kvs ++ forwardingPairs req)).
  rewrite Hd, Deadline_applyTimeout. unfold applyTimeout.
  split; [| split]; [| intros H0 | intros H0].
  - destruct (headerPairs kvs ++ forwardingPairs req);
      [now left | right; eexists; reflexivity].
  - destruct (Z.eqb_spec t 0); [contradiction | now split].
  - now rewrite H0.
Qed.

Lemma C7_deadline_from_effective_timeout_witness :
  exists c,
    out_ctx (AnnotateContext 0 5000 [("Grpc-Timeout", ["100m"])] Background
      (mkRequest {[ "Grpc-Timeout" := ["100m"] ]}
         EmptyString EmptyString)) = Some c /\
    Deadline c = Some (5000 + 100 * Time.Millisecond).
Proof.
  destruct (C7_deadline_from_effective_timeout 0 5000
      [("Grpc-Timeout", ["100m"])] Background
      (mkRequest {[ "Grpc-Timeout" := ["100m"] ]} EmptyString EmptyString)
      (100 * Time.Millisecond)) as (c & H1 & _ & _ & H2 & _).
  - right. split; vm_compute; [discriminate | reflexivity].
  - exists c. split; [exact H1 |]. apply H2. vm_compute. discriminate.
Defined.

(** C8 (as amended): when the call succeeds, either no pair was collected and
    the context of the deadline step is returned as it is, with nothing
    attached by the call, so that it reads the same metadata as the context
    passed in (none, if that one had none), or pairs were collected and the
    returned context has the metadata set built from them, which is not
    empty. *)
Theorem C8_metadata_attached_iff_pairs D now kvs ctx req t :
  effectiveTimeout D req = (t, None) ->
  let pairs := fst (collectPairs kvs req) in
  let out := AnnotateContext D now kvs ctx req in
  (pairs = [] ->
   out_ctx out = Some (applyTimeout now ctx t) /\
   FromContext (applyTimeout now ctx t) = FromContext ctx /\
   (snd (FromContext ctx) = false ->
    FromContext (applyTimeout now ctx t) = ([], false))) /\
  (pairs <> [] ->
   out_ctx out = Some (NewContext (applyTimeout now ctx t) (Pairs pairs)) /\
   FromContext (NewContext (applyTimeout now ctx t) (Pairs pairs))
   = (Pairs pairs, true) /\
   Pairs pairs <> []).
Proof.
  intros Ht pairs out. subst pairs out.
  unfold AnnotateContext. rewrite Ht.
  pose proof (collectPairs_pairs kvs req) as E.
  destruct (collectPairs kvs req) as [pairs log]. simpl in E. simpl fst.
  split.
  - intros ->. simpl. split; [reflexivity |].
    split; [apply FromContext_applyTimeout |].
    rewrite FromContext_applyTimeout. unfold FromContext.
    destruct (Value ctx mdKey) as [[| |]|]; simpl; congruence.
  - intros Hne. destruct pairs as [|k pairs]; [contradiction |].
    split; [reflexivity |]. split; [reflexivity |].
    rewrite E, <- flatten_app, Pairs_flatten.
    rewrite <- flatten_app in E.
    destruct (headerPairs kvs ++ forwardingPairs req); discriminate.
Qed.

Lemma C8_metadata_attached_iff_pairs_witness :
  out_ctx (AnnotateContext 0 100 [("Accept", ["*/*"])] Background
    (mkRequest {[ "Accept" := ["*/*"] ]}
       EmptyString EmptyString)) = Some Background /\
  FromContext Background = ([], false).
Proof.
  destruct (C8_metadata_attached_iff_pairs 0 100 [("Accept", ["*/*"])]
      Background
        (mkRequest {[ "Accept" := ["*/*"] ]}
           EmptyString EmptyString) 0)
    as [H _].
  - vm_compute. reflexivity.
  - destruct H as (H1 & _ & H3); [vm_compute; reflexivity |].
    split; [exact H1 | apply H3; reflexivity].
Defined.

(** C8 as worded fails on a context that already holds a metadata set: for
    a request that gives no pair the call returns that context as it is, and
    reading the metadata there yields the set it held, not an absent one. *)
Lemma C8_inherited_metadata_counterexample :
  fst (collectPairs [] (mkRequest ∅ EmptyString EmptyString)) = [] /\
  AnnotateContext 0 100 []
    (NewContext Background [("old", "1")])
    (mkRequest ∅ EmptyString EmptyString)
  = mkOutcome (Some (NewContext Background [("old", "1")])) None [] /\
  FromContext (NewContext Background [("old", "1")])
  = ([("old", "1")]%string, true) /\
  FromContext (NewContext Background [("old", "1")]) <> ([], false).
Proof.
  split; [vm_compute; reflexivity |].
  split; [vm_compute; reflexivity |].
  split; [reflexivity | discriminate].
Qed.

Lemma forwardedFor_log req pairs :
  snd (forwardedFor req pairs) = snd (forwardedFor req []).
Proof.
  unfold forwardedFor.
  destruct (negb (String.eqb (RemoteAddr req) EmptyString)); [| reflexivity].
  destruct (Net.SplitHostPort (RemoteAddr req)) as [[ip port] [e|]];
    [reflexivity |].
  now destruct (String.eqb (Http.Get (Header req) xForwardedFor) EmptyString).
Qed.

Lemma headerPairs_skip_timeout kvs :
  headerPairs (filter (fun kv => kv.1 <> "Grpc-Timeout"%string) kvs)
  = headerPairs kvs.
Proof.
  unfold headerPairs. induction kvs as [|[key vals] kvs IH]; [reflexivity |].
  rewrite filter_cons. cbn [fst].
  destruct (decide (key <> "Grpc-Timeout"%string)) as [Hk|Hk].
  - cbn [flat_map]. now rewrite IH.
  - cbn [flat_map]. rewrite IH.
    assert (key = "Grpc-Timeout"%string) as ->
      by (destruct (String.eqb_spec key "Grpc-Timeout");
          [assumption | contradiction]).
    assert (E : flat_map (projected "Grpc-Timeout") vals = []).
    { clear. induction vals as [|v vals IH]; [reflexivity | exact IH]. }
    now rewrite E.
Qed.

Lemma Get_delete_ne (h : Http.Header) k k' :
  k <> k' -> Http.Get (delete k h) k' = Http.Get h k'.
Proof. intros H. unfold Http.Get. now rewrite lookup_delete_ne. Qed.

Lemma Get_delete_eq (h : Http.Header) k : Http.Get (delete k h) k = EmptyString.
Proof. unfold Http.Get. now rewrite lookup_delete_eq. Qed.

(** Every header can be visited: its list of entries is one order. *)
Lemma rangeOf_map_to_list (h : Http.Header) : Http.rangeOf h (map_to_list h).
Proof. unfold Http.rangeOf. reflexivity. Qed.

Lemma rangeOf_delete (h : Http.Header) kvs k :
  Http.rangeOf h kvs ->
  Http.rangeOf (delete k h) (filter (fun kv => kv.1 <> k) kvs).
Proof.
  unfold Http.rangeOf. intros Hr. apply NoDup_Permutation.
  - apply NoDup_filter. rewrite Hr. apply NoDup_map_to_list.
  - apply NoDup_map_to_list.
  - intros [key vals]. rewrite list_elem_of_filter, Hr, !elem_of_map_to_list.
    cbn [fst]. rewrite lookup_delete_Some.
    split; intros [? ?]; split; congruence.
Qed.

(** C10: when the Grpc-Timeout header has a value that decodes to the zero
    duration, the call succeeds, applies no timeout to the context, and gives
    what it gives for the same request without that header under a zero
    [DefaultContextTimeout]. *)
Theorem C10_zero_timeout_token D now kvs ctx req :
  Http.Get (Header req) "Grpc-Timeout" <> EmptyString ->
  timeoutDecode (Http.Get (Header req) "Grpc-Timeout") = (0, None) ->
  let req' := mkRequest (delete "Grpc-Timeout"%string (Header req))
                (Host req) (RemoteAddr req) in
  let kvs' := filter (fun kv => kv.1 <> "Grpc-Timeout"%string) kvs in
  (Http.rangeOf (Header req) kvs -> Http.rangeOf (Header req') kvs') /\
  AnnotateContext D now kvs ctx req = AnnotateContext 0 now kvs' ctx req' /\
  out_err (AnnotateContext D now kvs ctx req) = None /\
  exists c,
    out_ctx (AnnotateContext D now kvs ctx req) = Some c /\
    (c = ctx \/ exists md, c = NewContext ctx md) /\
    Deadline c = Deadline ctx.
Proof.
  intros Hne Hz req' kvs'.
  assert (Ht : effectiveTimeout D req = (0, None))
    by (rewrite effectiveTimeout_present by exact Hne; now rewrite Hz).
  assert (Ht' : effectiveTimeout 0 req' = (0, None))
    by (apply effectiveTimeout_absent; apply Get_delete_eq).
  assert (Hf : forwardingPairs req' = forwardingPairs req).
  { unfold forwardingPairs, forwardedHostPairs, forwardedForPairs, req'.
    cbn [Header Host RemoteAddr]. now rewrite !Get_delete_ne by discriminate. }
  assert (Hl : snd (collectPairs kvs' req') = snd (collectPairs kvs req)).
  { unfold collectPairs. rewrite forwardedFor_log.
    rewrite (forwardedFor_log req). unfold forwardedFor, req'.
    cbn [Header Host RemoteAddr]. now rewrite !Get_delete_ne by discriminate. }
  split; [apply rangeOf_delete |].
  rewrite !AnnotateContext_eq, Ht, Ht'. cbv zeta.
  unfold kvs' at 1 2. rewrite headerPairs_skip_timeout, Hf, Hl.
  split; [reflexivity |]. split; [reflexivity |].
  eexists. split; [reflexivity |].
  destruct (headerPairs kvs ++ forwardingPairs req) as [|p ps].
  - split; [now left | reflexivity].
  - split; [right; eexists; reflexivity | reflexivity].
Qed.

Lemma C10_zero_timeout_token_witness :
  AnnotateContext 7000 100 [("Grpc-Timeout", ["0S"])] Background
    (mkRequest {[ "Grpc-Timeout" := ["0S"] ]} EmptyString EmptyString)
  = mkOutcome (Some Background) None [].
Proof.
  etransitivity.
  - apply (C10_zero_timeout_token 7000 100 [("Grpc-Timeout", ["0S"])] Background
             (mkRequest {[ "Grpc-Timeout" := ["0S"] ]}
                EmptyString EmptyString));
      vm_compute; [discriminate | reflexivity].
  - vm_compute. reflexivity.
Defined.

End AnnotateClaims.

(** ** The server metadata carrier *)

Section CarrierClaims.

Lemma ServerMetadata_kept ctx c md :
  keeps ctx c ->
  ServerMetadataFromContext ctx = (md, true) ->
  ServerMetadataFromContext c = (md, true).
Proof.
  intros Hk H. induction Hk as [| c d _ IH | c k v Hne _ IH].
  - exact H.
  - exact IH.
  - unfold ServerMetadataFromContext in *. cbn [Value].
    destruct k; [contradiction | exact IH | exact IH].
Qed.

(** C9 (as amended): retrieving from the context an attach returns gives the
    carrier attached, with [ok = true], and so does retrieving from every
    context derived from it without another binding of the carrier key;
    retrieving from a context on whose chain no carrier was attached gives
    [ok = false] and the zero carrier. *)
Theorem C9_attach_then_retrieve ctx md :
  ServerMetadataFromContext (NewServerMetadataContext ctx md) = (md, true) /\
  (forall c, keeps (NewServerMetadataContext ctx md) c ->
     ServerMetadataFromContext c = (md, true)) /\
  (attached ctx = false ->
   ServerMetadataFromContext ctx = (mkServerMetadata [] [], false)).
Proof.
  split; [reflexivity |]. split.
  - intros c Hk. now apply (ServerMetadata_kept _ c md Hk).
  - unfold ServerMetadataFromContext.
    induction ctx as [| parent IH d | parent IH k v]; intros H.
    + reflexivity.
    + exact (IH H).
    + cbn [attached Value] in *.
      destruct k; cbn [Key_eqb]; try exact (IH H).
      destruct v; [discriminate | reflexivity | reflexivity].
Qed.

Lemma C9_attach_then_retrieve_witness :
  ServerMetadataFromContext
    (WithDeadline
       (NewContext
          (NewServerMetadataContext Background
             (mkServerMetadata [("k", "v")] []))
          [("a", "b")]) 5)
  = (mkServerMetadata [("k", "v")] [], true) /\
  ServerMetadataFromContext (NewContext Background [("a", "b")])
  = (mkServerMetadata [] [], false).
Proof.
  split.
  - apply (proj1 (proj2 (C9_attach_then_retrieve Background
                           (mkServerMetadata [("k", "v")] [])))).
    apply keep_deadline, keep_value; [discriminate | apply keep_refl].
  - apply (proj2 (proj2 (C9_attach_then_retrieve
                           (NewContext Background [("a", "b")])
                           (mkServerMetadata [] [])))).
    reflexivity.
Defined.

(** C9 as worded fails on a descendant that binds the carrier key again:
    retrieving there gives the later carrier. *)
Lemma C9_shadowed_descendant_counterexample :
  descendant
    (NewServerMetadataContext Background (mkServerMetadata [("k", "v")] []))
    (NewServerMetadataContext
       (NewServerMetadataContext Background (mkServerMetadata [("k", "v")] []))
       (mkServerMetadata [] [])) /\
  ServerMetadataFromContext
    (NewServerMetadataContext
       (NewServerMetadataContext Background (mkServerMetadata [("k", "v")] []))
       (mkServerMetadata [] []))
  <> (mkServerMetadata [("k", "v")] [], true).
Proof.
  split; [apply desc_value, desc_refl | discriminate].
Qed.

End CarrierClaims.

(** ** The examples of the specification *)

Section Examples.

Example decode_2H : timeoutDecode "2H" = (2 * Time.Hour, None).
Proof. reflexivity. Qed.

Example decode_500m : timeoutDecode "500m" = (500 * Time.Millisecond, None).
Proof. reflexivity. Qed.

Example decode_10n : timeoutDecode "10n" = (10 * Time.Nanosecond, None).
Proof. reflexivity. Qed.

Example decode_too_short : timeoutDecode "5" = (0, Some (TooShort "5")).
Proof. reflexivity. Qed.

Example decode_bad_unit :
  timeoutDecode "5X" = (0, Some (UnitNotRecognized "5X")).
Proof. reflexivity. Qed.

Example decode_bad_number :
  timeoutDecode "abcS"
  = (0, Some (BadNumber
                (Strconv.mkNumError "ParseInt" "abc" Strconv.ErrSyntax))).
Proof. reflexivity. Qed.

Example decode_out_of_range :
  timeoutDecode "9223372036854775808n"
  = (0, Some (BadNumber
                (Strconv.mkNumError "ParseInt" "9223372036854775808"
                   Strconv.ErrRange))).
Proof. vm_compute. reflexivity. Qed.

Example split_host_port :
  Net.SplitHostPort "10.0.0.5:4321" = ("10.0.0.5"%string, "4321"%string, None).
Proof. reflexivity. Qed.

Example split_no_port : snd (Net.SplitHostPort "10.0.0.5") <> None.
Proof. discriminate. Qed.

Example annotate_headers :
  AnnotateContext 0 100
    [("Grpc-Metadata-Foo", ["bar"]); ("Authorization", ["Bearer xyz"])]
    Background
    (mkRequest
       (<["Grpc-Metadata-Foo" := ["bar"]]>
          {[ "Authorization" := ["Bearer xyz"] ]})
       EmptyString EmptyString)
  = mkOutcome
      (Some (NewContext Background
               [("foo", "bar"); ("authorization", "Bearer xyz")]%string))
      None [].
Proof. vm_compute. reflexivity. Qed.

Example annotate_remote_addr :
  AnnotateContext 0 100 [] Background
    (mkRequest ∅ EmptyString "10.0.0.5:4321")
  = mkOutcome
      (Some (NewContext Background [("x-forwarded-for", "10.0.0.5")]%string))
      None [].
Proof. vm_compute. reflexivity. Qed.

Example annotate_bad_remote_addr :
  AnnotateContext 0 100 [] Background (mkRequest ∅ EmptyString "10.0.0.5")
  = mkOutcome (Some Background) None ["invalid remote addr: 10.0.0.5"%string].
Proof. vm_compute. reflexivity. Qed.

End Examples.

(** * Further properties of the source *)

(** ** The unit table and the decode errors *)

Section CodecExtras.
Import Int Str Strconv Token.

Lemma timeoutUnitToDuration_ok u d :
  timeoutUnitToDuration u = (d, true) <-> unitDuration u = Some d.
Proof.
  rewrite timeoutUnitToDuration_table.
  destruct (unitDuration u) as [d'|]; split; intros H;
    try discriminate; injection H as <-; reflexivity.
Qed.

(** X1: [timeoutUnitToDuration] recognises exactly the six bytes H, M, S, m,
    u, n; for any other byte it returns the zero duration with [ok = false];
    the durations of recognised units are positive, and two different units
    never have the same duration. *)
Theorem X1_unit_table u :
  (snd (timeoutUnitToDuration u) = true <->
   In u ["H"; "M"; "S"; "m"; "u"; "n"]%char) /\
  (snd (timeoutUnitToDuration u) = false ->
   fst (timeoutUnitToDuration u) = 0) /\
  (snd (timeoutUnitToDuration u) = true ->
   0 < fst (timeoutUnitToDuration u)) /\
  (forall v,
     snd (timeoutUnitToDuration u) = true ->
     snd (timeoutUnitToDuration v) = true ->
     fst (timeoutUnitToDuration u) = fst (timeoutUnitToDuration v) ->
     u = v).
Proof.
  assert (Hcases : forall w,
    (w = "H"%char /\ timeoutUnitToDuration w = (Time.Hour, true)) \/
    (w = "M"%char /\ timeoutUnitToDuration w = (Time.Minute, true)) \/
    (w = "S"%char /\ timeoutUnitToDuration w = (Time.Second, true)) \/
    (w = "m"%char /\ timeoutUnitToDuration w = (Time.Millisecond, true)) \/
    (w = "u"%char /\ timeoutUnitToDuration w = (Time.Microsecond, true)) \/
    (w = "n"%char /\ timeoutUnitToDuration w = (Time.Nanosecond, true)) \/
    (~ In w ["H"; "M"; "S"; "m"; "u"; "n"]%char /\
     timeoutUnitToDuration w = (0, false))).
  { intros w. unfold timeoutUnitToDuration.
    destruct (Ascii.eqb_spec w "H"); [now left |]. right.
    destruct (Ascii.eqb_spec w "M"); [now left |]. right.
    destruct (Ascii.eqb_spec w "S"); [now left |]. right.
    destruct (Ascii.eqb_spec w "m"); [now left |]. right.
    destruct (Ascii.eqb_spec w "u"); [now left |]. right.
    destruct (Ascii.eqb_spec w "n"); [now left |]. right.
    split; [| reflexivity]. simpl. intuition congruence. }
  split; [| split; [| split]].
  - destruct (Hcases u)
      as [[-> E]|[[-> E]|[[-> E]|[[-> E]|[[-> E]|[[-> E]|[Hn E]]]]]]];
      rewrite E; simpl; split; intros H; try reflexivity; try tauto;
      try discriminate. now destruct Hn.
  - destruct (Hcases u)
      as [[-> E]|[[-> E]|[[-> E]|[[-> E]|[[-> E]|[[-> E]|[Hn E]]]]]]];
      rewrite E; simpl; intros H; try discriminate; reflexivity.
  - destruct (Hcases u)
      as [[-> E]|[[-> E]|[[-> E]|[[-> E]|[[-> E]|[[-> E]|[Hn E]]]]]]];
      rewrite E; simpl; intros H; try discriminate; reflexivity.
  - intros v.
    destruct (Hcases u)
      as [[-> E]|[[-> E]|[[-> E]|[[-> E]|[[-> E]|[[-> E]|[Hn E]]]]]]];
    destruct (Hcases v)
      as [[-> F]|[[-> F]|[[-> F]|[[-> F]|[[-> F]|[[-> F]|[Hm F]]]]]]];
      rewrite ?E, ?F; simpl; intros H1 H2 H3;
      try reflexivity; try discriminate.
Qed.

Lemma X1_unit_table_witness :
  0 < fst (timeoutUnitToDuration "S") /\
  fst (timeoutUnitToDuration "x") = 0.
Proof.
  split.
  - apply (proj1 (proj2 (proj2 (X1_unit_table "S")))). reflexivity.
  - apply (proj1 (proj2 (X1_unit_table "x"))). reflexivity.
Defined.

(** X2: [timeoutDecode] checks the length first, then the unit, then the
    number: a token shorter than two bytes is reported as too short, a longer
    one whose last byte is no unit as an unrecognised unit whatever its
    prefix is, and one with a unit but a prefix [strconv.ParseInt] rejects
    with the very error of [ParseInt]; the first two errors carry the whole
    token; and whenever an error is returned the duration returned is 0. *)
Theorem X2_decode_error_kinds s :
  ((len s < 2)%nat -> timeoutDecode s = (0, Some (TooShort s))) /\
  (forall p u,
     s = snoc p u -> (1 <= len p)%nat ->
     snd (timeoutUnitToDuration u) = false ->
     timeoutDecode s = (0, Some (UnitNotRecognized s))) /\
  (forall p u e,
     s = snoc p u -> (1 <= len p)%nat ->
     snd (timeoutUnitToDuration u) = true ->
     snd (ParseInt p) = Some e ->
     timeoutDecode s = (0, Some (BadNumber e))) /\
  (snd (timeoutDecode s) <> None -> fst (timeoutDecode s) = 0).
Proof.
  split; [| split; [| split]].
  - intros H. unfold timeoutDecode. apply Nat.ltb_lt in H. now rewrite H.
  - intros p u -> Hp Hu. rewrite timeoutDecode_snoc.
    assert (Hlen : (len p <? 1)%nat = false) by (apply Nat.ltb_ge; lia).
    rewrite Hlen. rewrite timeoutUnitToDuration_table in Hu.
    now destruct (unitDuration u).
  - intros p u e -> Hp Hu He. rewrite timeoutDecode_snoc.
    assert (Hlen : (len p <? 1)%nat = false) by (apply Nat.ltb_ge; lia).
    rewrite Hlen. rewrite timeoutUnitToDuration_table in Hu.
    destruct (unitDuration u); [| discriminate].
    destruct (ParseInt p) as [t [e'|]]; simpl in He; [| discriminate].
    now injection He as ->.
  - unfold timeoutDecode. destruct (len s <? 2)%nat; [reflexivity |].
    destruct (timeoutUnitToDuration (at_ s (len s - 1))) as [d [|]];
      [| reflexivity]. simpl negb. cbv iota.
    destruct (ParseInt (slice s 0 (len s - 1))) as [t [e|]];
      [reflexivity | intros H; now destruct H].
Qed.

Lemma X2_decode_error_kinds_witness :
  timeoutDecode "abcX" = (0, Some (UnitNotRecognized "abcX")) /\
  timeoutDecode "S" = (0, Some (TooShort "S")).
Proof.
  split.
  - apply (proj1 (proj2 (X2_decode_error_kinds "abcX")) "abc"%string "X"%char);
      [reflexivity | simpl; lia | reflexivity].
  - apply (proj1 (X2_decode_error_kinds "S")). simpl. lia.
Defined.

Lemma timeoutDecode_plain ds u d :
  digits ds = true -> unitDuration u = Some d -> decimalValue ds <= maxInt64 ->
  timeoutDecode (snoc ds u) = (wrapI64 (d * decimalValue ds), None).
Proof.
  intros Hd Hu Hmax.
  assert (Hlen' : (len ds <? 1)%nat = false)
    by (destruct ds; [discriminate | reflexivity]).
  assert (H0 : 0 <= decimalValue ds).
  { apply decimalValue_nonneg. unfold digits in Hd. now apply andb_prop in Hd. }
  rewrite timeoutDecode_snoc, Hu, Hlen'.
  rewrite (ParseInt_ok ds (decimalValue ds)); [reflexivity | |].
  - now apply digits_signedValue.
  - split; [unfold minInt64; lia | exact Hmax].
Qed.

(** X3: how the prefix may be spelt.  For digits [ds] writing an [int64] and
    a recognised unit, a leading ['+'] and leading zeros change nothing; a
    leading ['-'] negates the number, and is accepted up to [2^63], one more
    than without a sign. *)
Theorem X3_decode_signs_and_zeros ds u d :
  digits ds = true ->
  timeoutUnitToDuration u = (d, true) ->
  (decimalValue ds <= maxInt64 ->
   timeoutDecode (snoc (String "+" ds) u) = timeoutDecode (snoc ds u) /\
   timeoutDecode (snoc (String "0" ds) u) = timeoutDecode (snoc ds u) /\
   timeoutDecode (snoc ds u) = (wrapI64 (d * decimalValue ds), None)) /\
  (decimalValue ds <= 2 ^ 63 ->
   timeoutDecode (snoc (String "-" ds) u)
   = (wrapI64 (d * - decimalValue ds), None)) /\
  (2 ^ 63 <= decimalValue ds ->
   snd (timeoutDecode (snoc ds u)) <> None).
Proof.
  intros Hd Hu. apply timeoutUnitToDuration_ok in Hu.
  assert (Hlen : forall c, (len (String c ds) <? 1)%nat = false)
    by reflexivity.
  assert (Hlen' : (len ds <? 1)%nat = false)
    by (destruct ds; [discriminate | reflexivity]).
  assert (H0 : 0 <= decimalValue ds).
  { apply decimalValue_nonneg. unfold digits in Hd. now apply andb_prop in Hd. }
  assert (Hplain : decimalValue ds <= maxInt64 ->
    timeoutDecode (snoc ds u) = (wrapI64 (d * decimalValue ds), None))
    by (now apply timeoutDecode_plain).
  split; [| split].
  - intros Hmax. rewrite (Hplain Hmax). split; [| split; [| reflexivity]].
    + rewrite timeoutDecode_snoc, Hu, Hlen.
      rewrite (ParseInt_ok (String "+" ds) (decimalValue ds));
        [reflexivity | |].
      * cbn [signedValue]. change (Ascii.eqb "+" "+") with true. cbv iota.
        now rewrite Hd.
      * split; [unfold minInt64; lia | exact Hmax].
    + rewrite timeoutDecode_snoc, Hu, Hlen.
      assert (Hz : digits (String "0" ds) = true).
      { unfold digits in *. apply andb_prop in Hd as [_ Hd].
        simpl. exact Hd. }
      assert (Hv : decimalValue (String "0" ds) = decimalValue ds)
        by reflexivity.
      rewrite (ParseInt_ok (String "0" ds) (decimalValue ds));
        [reflexivity | |].
      * rewrite (digits_signedValue _ Hz). now rewrite Hv.
      * split; [unfold minInt64; lia | exact Hmax].
  - intros Hmax. rewrite timeoutDecode_snoc, Hu, Hlen.
    rewrite (ParseInt_ok (String "-" ds) (- decimalValue ds));
      [reflexivity | |].
    + cbn [signedValue]. change (Ascii.eqb "-" "+") with false.
      change (Ascii.eqb "-" "-") with true. cbv iota. now rewrite Hd.
    + unfold inInt64, minInt64, maxInt64. lia.
  - intros Hbig. rewrite timeoutDecode_snoc, Hu, Hlen'.
    assert (Hp : snd (ParseInt ds) <> None).
    { apply ParseInt_err. intros n Hn [_ Hhi].
      rewrite (digits_signedValue _ Hd) in Hn. injection Hn as <-.
      unfold maxInt64 in Hhi. lia. }
    destruct (ParseInt ds) as [t [e|]]; [discriminate | now destruct Hp].
Qed.

Lemma X3_decode_signs_and_zeros_witness :
  timeoutDecode "-9223372036854775808n" = (- 2 ^ 63, None) /\
  timeoutDecode "+007m" = timeoutDecode "007m".
Proof.
  split.
  - etransitivity.
    + apply (proj1 (proj2 (X3_decode_signs_and_zeros
               "9223372036854775808" "n" 1 eq_refl eq_refl))).
      vm_compute. discriminate.
    + vm_compute. reflexivity.
  - apply (proj1 (X3_decode_signs_and_zeros "007" "m" 1000000
                    eq_refl eq_refl)).
    vm_compute. discriminate.
Defined.

(** X4: up to 2562047 every unit is safe: for digits writing a number of at
    most 2562047 the decode is the exact product, not negative, whatever the
    recognised unit; the bound is the largest one, for 2562048 hours already
    overflow to a negative duration. *)
Theorem X4_decode_exact_below_bound ds u d :
  digits ds = true ->
  timeoutUnitToDuration u = (d, true) ->
  decimalValue ds <= 2562047 ->
  timeoutDecode (snoc ds u) = (d * decimalValue ds, None) /\
  0 <= d * decimalValue ds <= maxInt64 /\
  fst (timeoutDecode "2562048H") < 0.
Proof.
  intros Hd Hu Hb.
  assert (H0 : 0 <= decimalValue ds).
  { apply decimalValue_nonneg. unfold digits in Hd. now apply andb_prop in Hd. }
  assert (Hr : 0 <= d * decimalValue ds <= maxInt64).
  { unfold maxInt64. unfold timeoutUnitToDuration in Hu.
    repeat match type of Hu with
    | (if ?b then _ else _) = _ => destruct b
    end; try discriminate; injection Hu as <-;
    [ change Time.Hour with 3600000000000
    | change Time.Minute with 60000000000
    | change Time.Second with 1000000000
    | change Time.Millisecond with 1000000
    | change Time.Microsecond with 1000
    | change Time.Nanosecond with 1 ]; lia. }
  split; [| split; [exact Hr | vm_compute; reflexivity]].
  apply timeoutUnitToDuration_ok in Hu.
  rewrite (timeoutDecode_plain ds u d Hd Hu) by (unfold maxInt64; lia).
  rewrite wrapI64_small; [reflexivity |].
  unfold inInt64, minInt64. lia.
Qed.

Lemma X4_decode_exact_below_bound_witness :
  timeoutDecode "2562047H" = (2562047 * Time.Hour, None).
Proof.
  etransitivity.
  - apply (X4_decode_exact_below_bound "2562047" "H" Time.Hour eq_refl eq_refl).
    vm_compute. discriminate.
  - vm_compute. reflexivity.
Defined.

End CodecExtras.

(** ** The annotation *)

Section AnnotateExtras.
Import Str PairSpec.

(** X5: [AnnotateContext] fails exactly when the first Grpc-Timeout value is
    not empty and [timeoutDecode] rejects it; in every other case it returns
    a context and no error, whatever the other headers, the host and the
    remote address are. *)
Theorem X5_annotate_fails_iff D now kvs ctx req :
  (out_err (AnnotateContext D now kvs ctx req) <> None <->
   Http.Get (Header req) metadataGrpcTimeout <> EmptyString /\
   snd (timeoutDecode (Http.Get (Header req) metadataGrpcTimeout)) <> None) /\
  (out_err (AnnotateContext D now kvs ctx req) = None ->
   exists c, out_ctx (AnnotateContext D now kvs ctx req) = Some c).
Proof.
  change metadataGrpcTimeout with "Grpc-Timeout"%string.
  rewrite AnnotateContext_eq.
  destruct (String.eqb_spec (Http.Get (Header req) "Grpc-Timeout") EmptyString)
    as [He|Hne].
  - rewrite effectiveTimeout_absent by exact He. simpl. split.
    + split; [intros H; now destruct H | intros [H _]; now destruct H].
    + intros _. eexists. reflexivity.
  - rewrite effectiveTimeout_present by exact Hne.
    destruct (timeoutDecode (Http.Get (Header req) "Grpc-Timeout"))
      as [t [e|]]; simpl; split.
    + split; [intros _; split; [exact Hne | discriminate] | discriminate].
    + discriminate.
    + split; [intros H; now destruct H | intros [_ H]; now destruct H].
    + intros _. eexists. reflexivity.
Qed.

Lemma X5_annotate_fails_iff_witness :
  exists c,
    out_ctx (AnnotateContext 0 100 [] Background
               (mkRequest ∅ "example.com" "not an address")) = Some c.
Proof.
  apply (proj2 (X5_annotate_fails_iff 0 100 [] Background
                  (mkRequest ∅ "example.com" "not an address"))).
  reflexivity.
Defined.

(** X6: [DefaultContextTimeout] is read only when the first Grpc-Timeout
    value is empty or missing: with a non-empty value the outcome is the same
    under every default, and with an empty one a well-formed call gets the
    default as its timeout. *)
Theorem X6_default_only_without_header D D' now kvs ctx req :
  (Http.Get (Header req) metadataGrpcTimeout <> EmptyString ->
   AnnotateContext D now kvs ctx req = AnnotateContext D' now kvs ctx req) /\
  (Http.Get (Header req) metadataGrpcTimeout = EmptyString ->
   effectiveTimeout D req = (D, None)).
Proof.
  change metadataGrpcTimeout with "Grpc-Timeout"%string. split.
  - intros Hne. rewrite !AnnotateContext_eq.
    now rewrite !effectiveTimeout_present by exact Hne.
  - apply effectiveTimeout_absent.
Qed.

Lemma X6_default_only_without_header_witness :
  AnnotateContext 0 100 [("Grpc-Timeout", ["5S"])] Background
    (mkRequest {[ "Grpc-Timeout" := ["5S"] ]} EmptyString EmptyString)
  = AnnotateContext 9000 100 [("Grpc-Timeout", ["5S"])] Background
      (mkRequest {[ "Grpc-Timeout" := ["5S"] ]} EmptyString EmptyString).
Proof.
  apply (proj1 (X6_default_only_without_header 0 9000 100
                  [("Grpc-Timeout", ["5S"])] Background
                  (mkRequest {[ "Grpc-Timeout" := ["5S"] ]}
                     EmptyString EmptyString))).
  vm_compute. discriminate.
Defined.

Lemma length_flatten ps : length (flatten ps) = (2 * length ps)%nat.
Proof.
  induction ps as [|[k v] ps IH]; [reflexivity |].
  cbn [flatten flat_map app length] in *. unfold flatten in IH. lia.
Qed.

(** X7: the list handed to [metadata.Pairs] always has an even length, key
    and value alternating, so that no key is left without its value; the
    header loop alone keeps that, from any list of even length. *)
Theorem X7_pairs_even kvs req pairs :
  Nat.Even (length (fst (collectPairs kvs req))) /\
  (Nat.Even (length pairs) -> Nat.Even (length (projectHeader kvs pairs))) /\
  (length (Pairs (fst (collectPairs kvs req))) * 2
   = length (fst (collectPairs kvs req)))%nat.
Proof.
  split; [| split].
  - rewrite collectPairs_pairs, <- flatten_app, length_flatten.
    now exists (length (headerPairs kvs ++ forwardingPairs req)).
  - intros [n Hn]. rewrite projectHeaderheaderPairs, length_app, length_flatten.
    exists (n + length (headerPairs kvs))%nat. lia.
  - rewrite collectPairs_pairs, <- flatten_app, Pairs_flatten, length_flatten.
    rewrite length_map. lia.
Qed.

Lemma X7_pairs_even_witness :
  Nat.Even (length (projectHeader [("Authorization", ["a"; "b"])] ["k"; "v"])).
Proof.
  apply (proj1 (proj2 (X7_pairs_even [("Authorization", ["a"; "b"])]
                         (mkRequest ∅ EmptyString EmptyString) ["k"; "v"]))).
  exists 1%nat. reflexivity.
Defined.

(** X8: what is logged.  A failed call logs nothing; a call logs at most one
    line; and it logs one exactly when it succeeds with a remote address
    that is not empty and that [net.SplitHostPort] rejects, the line naming
    that address. *)
Theorem X8_annotate_log D now kvs ctx req :
  let out := AnnotateContext D now kvs ctx req in
  (out_err out <> None -> out_log out = []) /\
  (length (out_log out) <= 1)%nat /\
  (out_log out <> [] <->
   out_err out = None /\ RemoteAddr req <> EmptyString /\
   snd (Net.SplitHostPort (RemoteAddr req)) <> None) /\
  (out_log out <> [] ->
   out_log out = ["invalid remote addr: " +:+ RemoteAddr req]).
Proof.
  intros out. subst out. rewrite AnnotateContext_eq.
  assert (Hlog : snd (collectPairs kvs req) =
    if String.eqb (RemoteAddr req) EmptyString then []
    else match snd (Net.SplitHostPort (RemoteAddr req)) with
         | Some _ => ["invalid remote addr: " +:+ RemoteAddr req]
         | None => []
         end).
  { unfold collectPairs. rewrite forwardedFor_log. unfold forwardedFor.
    destruct (String.eqb (RemoteAddr req) EmptyString); [reflexivity |].
    simpl negb. cbv iota.
    destruct (Net.SplitHostPort (RemoteAddr req)) as [[ip port] [e|]];
      [reflexivity |].
    now destruct
      (String.eqb (Http.Get (Header req) xForwardedFor) EmptyString). }
  destruct (effectiveTimeout D req) as [t [e|]]; cbn [out_err out_log].
  - split; [reflexivity |]. split; [simpl; lia |]. split.
    + split; [intros H; now destruct H | intros [H _]; discriminate].
    + intros H. now destruct H.
  - rewrite Hlog. split; [intros H; now destruct H |].
    destruct (String.eqb_spec (RemoteAddr req) EmptyString) as [Ha|Ha].
    + split; [simpl; lia |]. split.
      * split; [intros H; now destruct H | intros (_ & H & _); contradiction].
      * intros H. now destruct H.
    + destruct (snd (Net.SplitHostPort (RemoteAddr req))) as [e|].
      * split; [simpl; lia |]. split; [| reflexivity].
        split; [| discriminate].
        intros _. repeat split; [exact Ha | discriminate].
      * split; [simpl; lia |]. split.
        -- split; [intros H; now destruct H |].
           intros (_ & _ & H). now destruct H.
        -- intros H. now destruct H.
Qed.

Lemma X8_annotate_log_witness :
  out_log (AnnotateContext 0 100 [("Grpc-Timeout", ["bogus"])] Background
             (mkRequest {[ "Grpc-Timeout" := ["bogus"] ]}
                EmptyString "not an address")) = [].
Proof.
  apply (proj1 (X8_annotate_log 0 100 [("Grpc-Timeout", ["bogus"])] Background
                  (mkRequest {[ "Grpc-Timeout" := ["bogus"] ]}
                     EmptyString "not an address"))).
  vm_compute. discriminate.
Defined.

Lemma Value_applyTimeout now ctx t k :
  Value (applyTimeout now ctx t) k = Value ctx k.
Proof. unfold applyTimeout. now destruct (negb (t =? 0)). Qed.

(** X9: annotation leaves alone what the context already holds: in the
    context it returns, every key but the metadata key reads as in the
    context passed in; so a server metadata carrier attached before the call
    is still retrieved after it. *)
Theorem X9_annotate_keeps_values D now kvs ctx req c :
  out_ctx (AnnotateContext D now kvs ctx req) = Some c ->
  (forall k, k <> mdKey -> Value c k = Value ctx k) /\
  ServerMetadataFromContext c = ServerMetadataFromContext ctx.
Proof.
  rewrite AnnotateContext_eq.
  destruct (effectiveTimeout D req) as [t [e|]]; [discriminate |].
  cbv zeta. cbn [out_ctx]. intros H. injection H as <-.
  assert (Hv : forall k, k <> mdKey ->
    Value match headerPairs kvs ++ forwardingPairs req with
          | [] => applyTimeout now ctx t
          | _ :: _ =>
              NewContext (applyTimeout now ctx t)
                (map lowerKey (headerPairs kvs ++ forwardingPairs req))
          end k = Value ctx k).
  { intros k Hk. destruct (headerPairs kvs ++ forwardingPairs req).
    - apply Value_applyTimeout.
    - cbn [NewContext Value]. destruct k; [| contradiction |];
        cbn [Key_eqb]; apply Value_applyTimeout. }
  split; [exact Hv |].
  unfold ServerMetadataFromContext. now rewrite Hv.
Qed.

Lemma X9_annotate_keeps_values_witness :
  ServerMetadataFromContext
    (NewContext
       (NewServerMetadataContext Background
          (mkServerMetadata [("k", "v")] []))
       [("x-forwarded-host", "example.com")])
  = (mkServerMetadata [("k", "v")] [], true).
Proof.
  etransitivity.
  - apply (X9_annotate_keeps_values 0 100 []
             (NewServerMetadataContext Background
                (mkServerMetadata [("k", "v")] []))
             (mkRequest ∅ "example.com" EmptyString)).
    vm_compute. reflexivity.
  - reflexivity.
Defined.

End AnnotateExtras.

(** ** The header loop and the map it ranges over *)

Section HeaderExtras.
Import Str PairSpec.

(** X10: the key the loop gives a [Grpc-Metadata-] header is the header name
    without the prefix: putting the prefix back in front of the key gives the
    header name again, so that different header names give different keys. *)
Theorem X10_stripped_key_round_trip key pairs val :
  key <> "Authorization"%string ->
  HasPrefix key MetadataHeaderPrefix = true ->
  let k := slice key (len MetadataHeaderPrefix) (len key) in
  projectValue key pairs val = pairs ++ [k; val] /\
  MetadataHeaderPrefix +:+ k = key /\
  (forall key',
     HasPrefix key' MetadataHeaderPrefix = true ->
     slice key' (len MetadataHeaderPrefix) (len key') = k ->
     key' = key).
Proof.
  intros Hna Hp k. subst k.
  assert (Hback : forall x, HasPrefix x MetadataHeaderPrefix = true ->
    MetadataHeaderPrefix +:+ slice x (len MetadataHeaderPrefix) (len x) = x).
  { intros x Hx. rewrite HasPrefix_prefix in Hx.
    apply prefix_inv in Hx as [rest ->].
    unfold slice, len. f_equal.
    change (String.length (MetadataHeaderPrefix +:+ rest))
      with (14 + String.length rest)%nat.
    replace (14 + String.length rest - String.length MetadataHeaderPrefix)%nat
      with (String.length rest) by (simpl; lia).
    apply substring_app_r. }
  split; [| split].
  - unfold projectValue, append2. rewrite Hp.
    now destruct (String.eqb_spec key "Authorization").
  - now apply Hback.
  - intros key' Hp' E. rewrite <- (Hback key' Hp'), <- (Hback key Hp).
    now rewrite E.
Qed.

Lemma X10_stripped_key_round_trip_witness :
  projectValue "Grpc-Metadata-Trace-Id" [] "42" = ["Trace-Id"; "42"]%string.
Proof.
  etransitivity.
  - apply (X10_stripped_key_round_trip "Grpc-Metadata-Trace-Id" [] "42");
      [discriminate | reflexivity].
  - reflexivity.
Defined.

Lemma Permutation_flat_map_pairs {A B} (f : A -> list B) l l' :
  l ≡ₚ l' -> flat_map f l ≡ₚ flat_map f l'.
Proof.
  induction 1 as [| x l l' _ IH | x y l | l l' l'' _ IH1 _ IH2]; simpl.
  - reflexivity.
  - now rewrite IH.
  - rewrite !app_assoc. f_equiv. apply Permutation_app_comm.
  - now rewrite IH1.
Qed.

(** X11: the order in which the loop visits the header map does not change
    what a call gives, up to the order of the pairs: for two orders of the
    same header the error and the log are the same, the deadline is the same,
    and the metadata sets attached hold the same pairs, each as many times. *)
Theorem X11_range_order_only_permutes D now ctx req kvs kvs' :
  Http.rangeOf (Header req) kvs ->
  Http.rangeOf (Header req) kvs' ->
  let out := AnnotateContext D now kvs ctx req in
  let out' := AnnotateContext D now kvs' ctx req in
  out_err out = out_err out' /\
  out_log out = out_log out' /\
  Pairs (fst (collectPairs kvs req))
  ≡ₚ Pairs (fst (collectPairs kvs' req)) /\
  (forall c c', out_ctx out = Some c -> out_ctx out' = Some c' ->
     Deadline c = Deadline c' /\
     fst (FromContext c) ≡ₚ fst (FromContext c') /\
     snd (FromContext c) = snd (FromContext c')).
Proof.
  intros Hr Hr' out out'. subst out out'.
  assert (Hp : headerPairs kvs ++ forwardingPairs req
               ≡ₚ headerPairs kvs' ++ forwardingPairs req).
  { f_equiv. unfold headerPairs. apply Permutation_flat_map_pairs.
    unfold Http.rangeOf in *. now rewrite Hr, Hr'. }
  assert (Hlog : snd (collectPairs kvs req) = snd (collectPairs kvs' req)).
  { unfold collectPairs.
    now rewrite forwardedFor_log,
      (forwardedFor_log req (_ _ (_ kvs' _))). }
  rewrite !AnnotateContext_eq.
  destruct (effectiveTimeout D req) as [t [e|]]; cbv zeta;
    cbn [out_err out_log out_ctx].
  - split; [reflexivity |]. split; [reflexivity |]. split.
    + rewrite !collectPairs_pairs, <- !flatten_app, !Pairs_flatten.
      now apply Permutation_map.
    + intros c c' H. discriminate H.
  - split; [reflexivity |]. split; [exact Hlog |]. split.
    + rewrite !collectPairs_pairs, <- !flatten_app, !Pairs_flatten.
      now apply Permutation_map.
    + intros c c' H H'. injection H as <-. injection H' as <-.
      destruct (headerPairs kvs ++ forwardingPairs req) as [|p ps] eqn:E.
      * apply Permutation_nil_l in Hp. rewrite <- Hp. repeat split; reflexivity.
      * destruct (headerPairs kvs' ++ forwardingPairs req) as [|p' ps'] eqn:E'.
        -- apply Permutation_nil_r in Hp. discriminate.
        -- rewrite !FromContext_NewContext. cbn [fst snd Deadline NewContext].
           split; [reflexivity |]. split; [| reflexivity].
           now apply Permutation_map.
Qed.

Lemma X11_range_order_only_permutes_witness :
  Pairs (fst (collectPairs
    (map_to_list
       (<["Grpc-Metadata-A" := ["1"]]> {[ "Authorization" := ["t"] ]}))
    (mkRequest (<["Grpc-Metadata-A" := ["1"]]> {[ "Authorization" := ["t"] ]})
       EmptyString EmptyString)))
  ≡ₚ
  Pairs (fst (collectPairs
    (reverse
       (map_to_list
          (<["Grpc-Metadata-A" := ["1"]]> {[ "Authorization" := ["t"] ]})))
    (mkRequest (<["Grpc-Metadata-A" := ["1"]]> {[ "Authorization" := ["t"] ]})
       EmptyString EmptyString))).
Proof.
  apply (X11_range_order_only_permutes 0 0 Background
    (mkRequest (<["Grpc-Metadata-A" := ["1"]]> {[ "Authorization" := ["t"] ]})
       EmptyString EmptyString)).
  - unfold Http.rangeOf. reflexivity.
  - unfold Http.rangeOf. apply reverse_Permutation.
Defined.

Lemma Get_insert_first (h : Http.Header) k v vs k' :
  h !! k = Some (v :: vs) -> Http.Get (<[k := [v]]> h) k' = Http.Get h k'.
Proof.
  intros H. unfold Http.Get. destruct (decide (k = k')) as [<-|Hne].
  - now rewrite lookup_insert_eq, H.
  - now rewrite lookup_insert_ne.
Qed.

Lemma named_header_not_projected k vals :
  In k [metadataGrpcTimeout; xForwardedHost; xForwardedFor] ->
  flat_map (projected k) vals = [].
Proof.
  intros [<-|[<-|[<-|[]]]]; induction vals as [|x vals IH];
    try reflexivity; exact IH.
Qed.

(** X12: of the three headers the call asks for by name, Grpc-Timeout,
    X-Forwarded-Host and X-Forwarded-For, only the first value is used:
    dropping the other values of such a header from the request changes
    nothing in the outcome. *)
Theorem X12_only_first_value_is_read D now kvs ctx req k v vs :
  In k [metadataGrpcTimeout; xForwardedHost; xForwardedFor] ->
  Header req !! k = Some (v :: vs) ->
  let req' :=
    mkRequest (<[k := [v]]> (Header req)) (Host req) (RemoteAddr req) in
  let kvs' :=
    map (fun kv => if String.eqb kv.1 k then (k, [v]) else kv) kvs in
  (Http.rangeOf (Header req) kvs -> Http.rangeOf (Header req') kvs') /\
  AnnotateContext D now kvs' ctx req' = AnnotateContext D now kvs ctx req.
Proof.
  intros Hk Hh req' kvs'. split.
  - unfold Http.rangeOf, req'. cbn [Header]. intros Hr.
    set (g := fun kv : string * list string =>
                if String.eqb kv.1 k then (k, [v]) else kv).
    assert (Hd : map_to_list (Header req)
                 ≡ₚ (k, v :: vs) :: map_to_list (delete k (Header req)))
      by (symmetry; now apply map_to_list_delete).
    assert (Hi : map_to_list (<[k := [v]]> (Header req))
                 ≡ₚ (k, [v]) :: map_to_list (delete k (Header req))).
    { rewrite <- insert_delete_eq. apply map_to_list_insert.
      apply lookup_delete_eq. }
    rewrite Hi. unfold kvs'. fold g.
    rewrite (Permutation_map g Hr), (Permutation_map g Hd).
    cbn [map]. unfold g at 1. cbn [fst]. rewrite String.eqb_refl.
    f_equiv. rewrite <- (map_id (map_to_list (delete k (Header req)))) at 2.
    apply Permutation_refl'. apply map_ext_in. intros [key vals] Hin.
    unfold g. cbn [fst]. destruct (String.eqb_spec key k) as [->|_];
      [| reflexivity].
    apply list_elem_of_In, elem_of_map_to_list in Hin.
    rewrite lookup_delete_eq in Hin. discriminate.
  - assert (Hg : forall k',
      Http.Get (Header req') k' = Http.Get (Header req) k')
      by (intros k'; unfold req'; cbn [Header];
          now apply Get_insert_first with vs).
    assert (Ht : effectiveTimeout D req' = effectiveTimeout D req)
      by (unfold effectiveTimeout; now rewrite Hg).
    assert (Hf : forwardingPairs req' = forwardingPairs req)
      by (unfold forwardingPairs, forwardedHostPairs, forwardedForPairs;
          now rewrite !Hg).
    assert (Hl : snd (collectPairs kvs' req') = snd (collectPairs kvs req)).
    { unfold collectPairs. rewrite forwardedFor_log, (forwardedFor_log req).
      unfold forwardedFor. now rewrite Hg. }
    assert (Hp : headerPairs kvs' = headerPairs kvs).
    { unfold kvs', headerPairs. clear -Hk.
      induction kvs as [|[key vals] l IH]; [reflexivity |].
      cbn [map flat_map fst]. rewrite IH. f_equal.
      destruct (String.eqb_spec key k) as [->|_]; [| reflexivity].
      now rewrite !named_header_not_projected. }
    rewrite !AnnotateContext_eq, Ht, Hf, Hl, Hp. reflexivity.
Qed.

Lemma X12_only_first_value_is_read_witness :
  AnnotateContext 0 100 [("X-Forwarded-For", ["1.2.3.4"])] Background
    (mkRequest (<["X-Forwarded-For" := ["1.2.3.4"]]>
                  {[ "X-Forwarded-For" := ["1.2.3.4"; "5.6.7.8"] ]})
       EmptyString "10.0.0.5:4321")
  = AnnotateContext 0 100 [("X-Forwarded-For", ["1.2.3.4"; "5.6.7.8"])]
      Background
      (mkRequest {[ "X-Forwarded-For" := ["1.2.3.4"; "5.6.7.8"] ]}
         EmptyString "10.0.0.5:4321").
Proof.
  destruct (X12_only_first_value_is_read 0 100
    [("X-Forwarded-For", ["1.2.3.4"; "5.6.7.8"])] Background
    (mkRequest {[ "X-Forwarded-For" := ["1.2.3.4"; "5.6.7.8"] ]}
       EmptyString "10.0.0.5:4321")
    "X-Forwarded-For" "1.2.3.4" ["5.6.7.8"%string]) as [_ H].
  - right. right. left. reflexivity.
  - vm_compute. reflexivity.
  - etransitivity; [| exact H]. vm_compute. reflexivity.
Defined.

End HeaderExtras.
